(** * Theme resolution of "The Perfect Dark Mode", and the code around it

    A shallow embedding of the final listings of
    [src/content/blog/the-perfect-dark-mode.mdx]:

    - [pages/_document.js]: [getInitialColorMode], [setInitialColorMode],
      [blockingSetInitialColorMode] and [MyDocument.render];
    - [pages/index.js]: [IndexPage] with [handleToggle],
      [storeUserSetPreference] and its two [useEffect] hooks;
    - [styles.css];

    and of the code next to it: the link and heading wrappers of
    [src/components/mdx/index.tsx], [getStaticPaths] and [getStaticProps]
    of the blog page, [getBlogPostsData] and the feed items of the RSS
    post, [useInterval] and [changeColor] of the chameleon post.

    JavaScript code that reads and writes [window.localStorage], the style
    and the attributes of [document.documentElement] and a React state cell
    becomes a computation in a state-and-exception monad over a [Page]
    record.  What the browser provides and the script cannot change (whether
    the storage calls throw, what [matchMedia] answers) is a [Window]
    record. *)

From stdpp Require Import gmap strings list pretty.

Open Scope string_scope.
Open Scope list_scope.

(** ** JavaScript values and completions *)

Inductive JSValue : Type :=
  | JUndefined
  | JNull
  | JBool (b : bool)
  | JNumber (n : Z)
  | JString (s : string).

(** The [typeof] operator on the values above. *)
Definition typeof (v : JSValue) : string :=
  match v with
  | JUndefined => "undefined"
  | JNull => "object"
  | JBool _ => "boolean"
  | JNumber _ => "number"
  | JString _ => "string"
  end.

(** The exceptions the browser interfaces used here can raise. *)
Inductive Exn : Type :=
  | SecurityError        (* storage disabled by user or browser policy *)
  | QuotaExceededError   (* setItem on a full or zero-quota storage *)
  | TypeError.           (* a property read on undefined or null *)

(** How a JavaScript call ends: with a value, or by throwing. *)
Inductive Completion (A : Type) : Type :=
  | Normal (a : A)
  | Throw (e : Exn).
Arguments Normal {A} a.
Arguments Throw {A} e.

(** ** The browser environment and the page state *)

(** The object returned by [window.matchMedia]. *)
Record MediaQueryList : Type := {
  matches : JSValue;
  media : string
}.

(** What the page cannot change.  [getItem_throws] and [setItem_throws] are
    [Some e] when the respective call on [window.localStorage] throws [e]
    (a storage that is absent makes both throw [TypeError]). *)
Record Window : Type := {
  getItem_throws : option Exn;
  setItem_throws : option Exn;
  matchMedia_answer : string → Completion MediaQueryList
}.

(** What the code reads and writes. *)
Record Page : Type := {
  localStorage : gmap string string;   (* the durable store of the origin *)
  style : gmap string string;          (* documentElement.style *)
  attributes : gmap string string;     (* documentElement's attributes *)
  darkTheme : option bool              (* IndexPage's state, None = undefined *)
}.

Definition set_localStorage (m : gmap string string) (p : Page) : Page :=
  {| localStorage := m; style := style p;
     attributes := attributes p; darkTheme := darkTheme p |}.

Definition set_style (m : gmap string string) (p : Page) : Page :=
  {| localStorage := localStorage p; style := m;
     attributes := attributes p; darkTheme := darkTheme p |}.

Definition set_attributes (m : gmap string string) (p : Page) : Page :=
  {| localStorage := localStorage p; style := style p;
     attributes := m; darkTheme := darkTheme p |}.

Definition set_darkTheme (d : option bool) (p : Page) : Page :=
  {| localStorage := localStorage p; style := style p;
     attributes := attributes p; darkTheme := d |}.

(** ** The monad of JavaScript statements

    A statement maps the page to a completion and the page it leaves
    behind.  A throw keeps every write made before it, as in JavaScript. *)

Definition JS (A : Type) : Type := Page → Completion A * Page.

#[global] Instance JS_ret : MRet JS := λ A a p, (Normal a, p).

#[global] Instance JS_bind : MBind JS := λ A B f m p,
  match m p with
  | (Normal a, p') => f a p'
  | (Throw e, p') => (Throw e, p')
  end.

Definition result {A : Type} (m : JS A) (p : Page) : Completion A := (m p).1.
Definition after {A : Type} (m : JS A) (p : Page) : Page := (m p).2.

(** ** The browser interfaces the listings call *)

Section Browser.
Context (window : Window).

(** [window.localStorage.getItem(key)]: the stored string, or [null]. *)
Definition localStorage_getItem (key : string) : JS JSValue := λ p,
  match getItem_throws window with
  | Some e => (Throw e, p)
  | None =>
      (Normal (match localStorage p !! key with
               | Some s => JString s
               | None => JNull
               end), p)
  end.

(** [window.localStorage.setItem(key, value)]. *)
Definition localStorage_setItem (key value : string) : JS () := λ p,
  match setItem_throws window with
  | Some e => (Throw e, p)
  | None => (Normal (), set_localStorage (<[key := value]> (localStorage p)) p)
  end.

(** [window.matchMedia(query)]. *)
Definition matchMedia (query : string) : JS MediaQueryList := λ p,
  (matchMedia_answer window query, p).

(** [root.style.setProperty(name, value)] for a custom property: the empty
    string removes the property, any other value is stored as given.  This
    is what a browser does for a value such as [light], [dark] or
    [hsl(1, 80%, 50%)]; a browser also trims white space around a value and
    ignores a value that does not parse, which is not modelled, so what is
    read back is stated for the former values only. *)
Definition style_setProperty (name value : string) : JS () := λ p,
  (Normal (),
   set_style (if bool_decide (value = "")
              then delete name (style p)
              else <[name := value]> (style p)) p).

(** [root.style.getPropertyValue(name)]: the empty string when unset. *)
Definition style_getPropertyValue (name : string) : JS string := λ p,
  (Normal (default "" (style p !! name)), p).

(** [root.setAttribute(name, value)] and [root.removeAttribute(name)]. *)
Definition setAttribute (name value : string) : JS () := λ p,
  (Normal (), set_attributes (<[name := value]> (attributes p)) p).

Definition removeAttribute (name : string) : JS () := λ p,
  (Normal (), set_attributes (delete name (attributes p)) p).

(** ** pages/_document.js *)

(** [function getInitialColorMode()].  The test
    [typeof preference === "string"] is the [JString] branch of the match
    (lemma [typeof_string] below), [typeof mql.matches === "boolean"] the
    [JBool] branch. *)
Definition getInitialColorMode : JS string :=
  preference ← localStorage_getItem "theme";
  match preference with
  | JString s =>
      (* hasExplicitPreference *)
      mret s
  | _ =>
      (* If there is no saved preference, use a media query *)
      let mediaQuery := "(prefers-color-scheme: dark)" in
      mql ← matchMedia mediaQuery;
      match matches mql with
      | JBool b =>
          (* hasImplicitPreference *)
          mret (if b then "dark" else "light")
      | _ =>
          (* default to 'light' *)
          mret "light"
      end
  end.

(** [function setInitialColorMode()]. *)
Definition setInitialColorMode : JS () :=
  colorMode ← getInitialColorMode;
  style_setProperty "--initial-color-mode" colorMode;;
  (* add HTML attribute if dark mode *)
  if bool_decide (colorMode = "dark")
  then setAttribute "data-theme" "dark"
  else mret ().

(** [blockingSetInitialColorMode]: the text of an immediately invoked
    function that declares [setInitialColorMode] and calls it. *)
Definition blockingSetInitialColorMode : JS () := setInitialColorMode.

(** ** pages/index.js *)

(** [const [darkTheme, setDarkTheme] = useState(undefined)]: the state cell
    is the [darkTheme] field of the page. *)
Definition useState_undefined : JS () := λ p,
  (Normal (), set_darkTheme None p).

Definition setDarkTheme (value : bool) : JS () := λ p,
  (Normal (), set_darkTheme (Some value) p).

Definition readDarkTheme : JS (option bool) := λ p,
  (Normal (darkTheme p), p).

(** [const handleToggle = (event) => setDarkTheme(event.target.checked)]. *)
Definition handleToggle (checked : bool) : JS () := setDarkTheme checked.

(** [const storeUserSetPreference = (pref) => localStorage.setItem("theme", pref)]. *)
Definition storeUserSetPreference (pref : string) : JS () :=
  localStorage_setItem "theme" pref.

(** The body of [useEffect(() => {...}, [])]. *)
Definition initialColorEffect : JS () :=
  initialColorValue ← style_getPropertyValue "--initial-color-mode";
  setDarkTheme (bool_decide (initialColorValue = "dark")).

(** The body of [useEffect(() => {...}, [darkTheme])], closed over the
    [darkTheme] of the render that scheduled it. *)
Definition darkThemeEffect (darkTheme : option bool) : JS () :=
  match darkTheme with
  | Some true =>
      setAttribute "data-theme" "dark";;
      storeUserSetPreference "dark"
  | Some false =>
      removeAttribute "data-theme";;
      storeUserSetPreference "light"
  | None => mret ()
  end.

(** React after a state update: when the state differs from the one last
    rendered, the component renders again and the effect whose dependency
    list is [[darkTheme]] runs with the new value; an update to the same
    value runs nothing.  The effect with the empty dependency list runs on
    mount only. *)
Definition rerender (rendered : option bool) : JS () :=
  current ← readDarkTheme;
  if bool_decide (current = rendered)
  then mret ()
  else darkThemeEffect current.

(** Mounting [IndexPage] (hydration): the first render sees
    [darkTheme = undefined]; its two effects run in the order they are
    declared; the state update of the first one causes a second render.
    When an effect throws, React takes the component off the page; the
    page state then still records what was written to the document and to
    the store, and in [darkTheme] the last state the component had. *)
Definition mount : JS () :=
  useState_undefined;;
  initialColorEffect;;
  darkThemeEffect None;;
  rerender None.

(** The user sets the checkbox to [checked]: the change handler runs, then
    React processes the state update. *)
Definition toggle (checked : bool) : JS () :=
  rendered ← readDarkTheme;
  handleToggle checked;;
  rerender rendered.

End Browser.

(** The token that stands for a position of the checkbox. *)
Definition token (checked : bool) : string :=
  if checked then "dark" else "light".

(** ** The document and how the browser loads it *)

(** The children of [<body>] that [MyDocument.render] returns.  A script
    element carries its [async] and [defer] attributes, whether it has a
    [src], and the statements of its text. *)
Inductive BodyChild : Type :=
  | script (async defer : bool) (src : option string) (innerHTML : JS ())
  | Main (hydrate : JS ())
  | NextScript.

(** [MyDocument.render()]: [<script dangerouslySetInnerHTML=.../>], then
    [<Main />], then [<NextScript />].  The script element holds the text
    of the function; here it holds the statements that text runs.
    [<Main />] stands for the markup of the page and [<NextScript />] for
    the bundle that mounts [IndexPage] in the browser. *)
Definition MyDocument_render (window : Window) : list BodyChild :=
  [ script false false None (blockingSetInitialColorMode window);
    Main (mount window);
    NextScript ].

(** What happens while a page loads, in order. *)
Inductive LoadEvent : Type :=
  | Executed (c : Completion ())   (* a script ran to this completion *)
  | Painted (shown : Page).        (* page content became visible in this state *)

(** The browser's parser walks the body in document order.  This is a
    model of the browser, not code of the repository.
    - A script without [src] runs where it stands, to completion, before
      the next child is looked at; [async] and [defer] have no effect on
      it.  So does a script with [src] and neither attribute.  An uncaught
      exception is reported and parsing goes on.
    - A script with [src] and [async] or [defer] does not block: it is
      queued and runs after the body has been parsed.
    - The markup of [<Main />] can be painted as soon as it is parsed; the
      component it contains is mounted by the bundle of [<NextScript />],
      which Next.js loads without blocking. *)
Fixpoint parse (body : list BodyChild) (pending : option (JS ()))
    (queue : list (JS ())) (p : Page) : list LoadEvent * list (JS ()) * Page :=
  match body with
  | [] => ([], queue, p)
  | script async defer src js :: rest =>
      if bool_decide (src ≠ None) && (async || defer)
      then parse rest pending (queue ++ [js]) p
      else
        let '(c, p') := js p in
        let '(evs, q, p'') := parse rest pending queue p' in
        (Executed c :: evs, q, p'')
  | Main hydrate :: rest =>
      let '(evs, q, p') := parse rest (Some hydrate) queue p in
      (Painted p :: evs, q, p')
  | NextScript :: rest =>
      parse rest None (queue ++ from_option (λ h, [h]) [] pending) p
  end.

Fixpoint run_queue (queue : list (JS ())) (p : Page) : list LoadEvent * Page :=
  match queue with
  | [] => ([], p)
  | js :: rest =>
      let '(c, p') := js p in
      let '(evs, p'') := run_queue rest p' in
      (Executed c :: evs, p'')
  end.

Definition load (body : list BodyChild) (p : Page) : list LoadEvent * Page :=
  let '(evs, queue, p') := parse body None [] p in
  let '(evs', p'') := run_queue queue p' in
  (evs ++ evs', p'').

(** The page a browser starts from: the store as the last visit left it,
    no inline style, no attribute on the root, no component mounted. *)
Definition freshPage (store : gmap string string) : Page :=
  {| localStorage := store; style := ∅; attributes := ∅; darkTheme := None |}.

(** One page load: the events, and the page state once it has settled. *)
Definition pageLoad (window : Window) (store : gmap string string)
    : list LoadEvent * Page :=
  load (MyDocument_render window) (freshPage store).

(** ** Vocabulary of the properties *)

(** The two tokens of a theme preference. *)
Definition valid_token (s : string) : Prop := s = "light" ∨ s = "dark".

(** The query the resolver sends to [matchMedia]. *)
Definition colorSchemeQuery : string := "(prefers-color-scheme: dark)".

(** The durable store can be read, respectively written. *)
Definition store_readable (window : Window) : Prop :=
  getItem_throws window = None.
Definition store_writable (window : Window) : Prop :=
  setItem_throws window = None.

(** The preference the store holds, if any. *)
Definition stored (p : Page) : option string := localStorage p !! "theme".

(** What the first effect reads from the style of the root. *)
Definition initiallyDark (p : Page) : bool :=
  bool_decide (default "" (style p !! "--initial-color-mode") = "dark").

(** A window whose storage works and whose media query answers with
    [matches = m]; one whose storage throws on every call; one whose media
    query throws. *)
Definition window_with (m : JSValue) : Window :=
  {| getItem_throws := None; setItem_throws := None;
     matchMedia_answer := λ q, Normal {| matches := m; media := q |} |}.

Definition window_without_storage : Window :=
  {| getItem_throws := Some SecurityError;
     setItem_throws := Some SecurityError;
     matchMedia_answer := λ q, Normal {| matches := JBool true; media := q |} |}.

Definition window_without_matchMedia : Window :=
  {| getItem_throws := None; setItem_throws := None;
     matchMedia_answer := λ _, Throw TypeError |}.

(** The user's interactions with a loaded page, and the pages they lead
    to. *)
Inductive reachable (window : Window) : Page → Prop :=
  | reachable_load (store : gmap string string) :
      reachable window (pageLoad window store).2
  | reachable_toggle (p : Page) (checked : bool) :
      reachable window p →
      reachable window (after (toggle window checked) p).

(** The component and the store agree: once the state is known, the store
    holds its token. *)
Definition synced (p : Page) : Prop :=
  ∀ b, darkTheme p = Some b → stored p = Some (token b).

(** The root carries [data-theme="dark"] exactly when the mode is dark, and
    no [data-theme] at all when it is light. *)
Definition attribute_tracks_mode (p : Page) : Prop :=
  ∃ b, darkTheme p = Some b ∧
       attributes p !! "data-theme" = (if b then Some "dark" else None).

(** How one operation may change the store: not at all, or by putting a
    token under [theme]. *)
Definition store_step (m m' : gmap string string) : Prop :=
  m' = m ∨ ∃ checked, m' = <["theme" := token checked]> m.

(** The operations of the theme resolver. *)
Inductive Operation : Type :=
  | Resolve
  | Hydrate
  | Toggle (checked : bool).

Definition run (window : Window) (op : Operation) : JS () :=
  match op with
  | Resolve => setInitialColorMode window
  | Hydrate => mount window
  | Toggle checked => toggle window checked
  end.

(** Operations run in separate turns of the event loop: an exception ends
    its own turn only. *)
Definition run_all (window : Window) (ops : list Operation) (p : Page) : Page :=
  foldl (λ q op, after (run window op) q) p ops.

(** The mode a load settles in, read off the store and the media query:
    the stored string decides when there is one, [matches] otherwise. *)
Definition settlesDark (window : Window) (store : gmap string string) : bool :=
  match store !! "theme" with
  | Some s => bool_decide (s = "dark")
  | None =>
      match matchMedia_answer window colorSchemeQuery with
      | Normal mql =>
          match matches mql with JBool b => b | _ => false end
      | Throw _ => false
      end
  end.

(** The store holds nothing or a token, and the media query answers if it
    is asked. *)
Definition resolvable (window : Window) (store : gmap string string) : Prop :=
  (∃ s, store !! "theme" = Some s ∧ valid_token s) ∨
  (store !! "theme" = None ∧
   ∃ mql, matchMedia_answer window colorSchemeQuery = Normal mql).

(** ** styles.css

    The stylesheet of the final listings, and as much of the cascade as it
    uses: the selectors [:root], [[name="value"]] and a type selector;
    declarations of custom properties and of properties whose value is a
    [var()] reference. *)

Inductive Selector : Type :=
  | RootPseudo                          (* :root *)
  | AttrEquals (name value : string)    (* [name="value"] *)
  | TypeSelector (tag : string).        (* body *)

Inductive CssValue : Type :=
  | Lit (text : string)
  | Var (name : string).                (* var(--name) *)

Record Rule : Type := {
  selector : Selector;
  declarations : list (string * CssValue)
}.

Definition styles_css : list Rule :=
  [ {| selector := RootPseudo;
       declarations :=
         [ ("--color-primary-accent", Lit "#5b34da");
           ("--color-primary", Lit "#000");
           ("--color-background", Lit "#fff") ] |};
    {| selector := AttrEquals "data-theme" "dark";
       declarations :=
         [ ("--color-primary-accent", Lit "#9d86e9");
           ("--color-primary", Lit "#fff");
           ("--color-background", Lit "#000") ] |};
    {| selector := TypeSelector "body";
       declarations :=
         [ ("background-color", Var "--color-background");
           ("color", Var "--color-primary") ] |} ].

(** An element as the selectors see it. *)
Record Element : Type := {
  tagName : string;
  isRoot : bool;
  elementAttributes : gmap string string
}.

Definition selects (sel : Selector) (el : Element) : bool :=
  match sel with
  | RootPseudo => isRoot el
  | AttrEquals name value =>
      bool_decide (elementAttributes el !! name = Some value)
  | TypeSelector tag => bool_decide (tagName el = tag)
  end.

(** A type selector is less specific than a pseudo-class or an attribute
    selector, which are as specific as each other. *)
Definition isTypeSelector (r : Rule) : bool :=
  match selector r with TypeSelector _ => true | _ => false end.

(** The declarations that apply to an element, weakest first: by
    specificity, then by order in the sheet.  A later one overrides. *)
Definition declared (sheet : list Rule) (el : Element)
    : gmap string CssValue :=
  let ordered :=
    List.filter isTypeSelector sheet ++
    List.filter (λ r, negb (isTypeSelector r)) sheet in
  foldl (λ acc r,
           if selects (selector r) el
           then foldl (λ a d, <[d.1 := d.2]> a) acc (declarations r)
           else acc)
        ∅ ordered.

(** [document.documentElement] and [document.body] of a page.  The
    listings put attributes on the root only. *)
Definition rootElement (p : Page) : Element :=
  {| tagName := "html"; isRoot := true; elementAttributes := attributes p |}.

Definition bodyElement : Element :=
  {| tagName := "body"; isRoot := false; elementAttributes := ∅ |}.

(** The value of a custom property on the root: the inline style of the
    root wins over the sheet.  (A custom property declared by reference to
    another one does not occur in the sheet and has no value here.) *)
Definition rootCustomProperty (sheet : list Rule) (p : Page) (name : string)
    : option string :=
  match style p !! name with
  | Some v => Some v
  | None =>
      match declared sheet (rootElement p) !! name with
      | Some (Lit v) => Some v
      | _ => None
      end
  end.

(** Custom properties are inherited: the body has the root's unless a rule
    declares its own. *)
Definition bodyCustomProperty (sheet : list Rule) (p : Page) (name : string)
    : option string :=
  match declared sheet bodyElement !! name with
  | Some (Lit v) => Some v
  | Some (Var _) => None
  | None => rootCustomProperty sheet p name
  end.

(** The used value of a property of the body. *)
Definition bodyProperty (sheet : list Rule) (p : Page) (name : string)
    : option string :=
  match declared sheet bodyElement !! name with
  | Some (Lit v) => Some v
  | Some (Var custom) => bodyCustomProperty sheet p custom
  | None => None
  end.

(** ** components/mdx/index.tsx

    React elements as data: the type of the element (a tag or the name of a
    component), its props and its children. *)

Inductive PropValue : Type :=
  | PString (s : string)
  | PBool (b : bool)
  | PStyle (css : list (string * string))   (* a CSSProperties object *)
  | PRef.                                   (* a ref object *)

#[warnings="-register-all"]
Inductive Node : Type :=
  | TextNode (text : string)
  | ElementNode (type : string) (props : gmap string PropValue)
      (children : list Node).




(** [propsWithoutChildren.id ?? ""]. *)
Definition idOrEmpty (props : gmap string PropValue) : string :=
  match props !! "id" with
  | Some (PString id) => id
  | _ => ""
  end.

(** [HandleMDXHeaderElement(el, { children, ...propsWithoutChildren })].
    [isHovered] is what [useHover()] returned for this render. *)
Definition HandleMDXHeaderElement (isHovered : bool) (el : string)
    (propsWithoutChildren : gmap string PropValue) (children : list Node)
    : Node :=
  let headerStyles := [("color", "var(--color-primary-accent)")] in
  let propsWithStyles := <["style" := PStyle headerStyles]> propsWithoutChildren in
  let LinkIcons :=
    ElementNode "LinkedHeaderIconWrapper"
      (<["href" := PString ("#" +:+ idOrEmpty propsWithoutChildren)]>
         {[ "isHovered" := PBool isHovered ]})
      [ ElementNode "FiLink"
          (match propsWithoutChildren !! "id" with
           | Some id => {[ "aria-label" := id ]}
           | None => ∅
           end) [] ] in
  let ActualHeading := ElementNode el propsWithStyles (LinkIcons :: children) in
  ElementNode "div" {[ "ref" := PRef ]} [ActualHeading].

(** [MDXHeadingWrapper]: the components for [h1], [h2] and [h3]. *)
Definition MDXHeadingWrapper (isHovered : bool) (key : string)
    : option (gmap string PropValue → list Node → Node) :=
  if bool_decide (key = "h1") then Some (HandleMDXHeaderElement isHovered "h1")
  else if bool_decide (key = "h2") then Some (HandleMDXHeaderElement isHovered "h2")
  else if bool_decide (key = "h3") then Some (HandleMDXHeaderElement isHovered "h3")
  else None.




(** ** pages/blog/[slug].tsx *)

Record TBlogPost : Type := {
  slug : string;
  title : string;
  summary : string;
  publishedAt : string;
  published : bool
}.

(** How a function of the build ends: it returns, or it throws (an
    [async] function rejects) with a message. *)
Inductive Outcome (A : Type) : Type :=
  | Returned (a : A)
  | Rejected (message : string).
Arguments Returned {A} a.
Arguments Rejected {A} message.





Section Build.
Context {MDXContent : Type}.
Context (importModule : string → Outcome MDXContent).
Context (renderToStaticMarkup : MDXContent → string).


End Build.

(** ** utils/blog and the RSS feed (the listings of the RSS post) *)

(** [s.endsWith(suffix)]. *)
Fixpoint endsWith (s suffix : string) : bool :=
  String.eqb s suffix ||
  match s with
  | EmptyString => false
  | String _ rest => endsWith rest suffix
  end.

(** [s] without [suffix] at its end, if it ends with it. *)
Fixpoint removeSuffix (suffix s : string) : option string :=
  if String.eqb s suffix then Some EmptyString
  else
    match s with
    | EmptyString => None
    | String c rest => String c <$> removeSuffix suffix rest
    end.

(** [file.replace(/\.mdx?$/, "")]: the expression matches [.mdx] or [.md]
    at the end of the name only. *)
Definition removeMdxExtension (file : string) : string :=
  match removeSuffix ".mdx" file with
  | Some stem => stem
  | None =>
      match removeSuffix ".md" file with
      | Some stem => stem
      | None => file
      end
  end.

(** [array.map(f)] for an [f] that may throw: the first throw ends the
    call. *)
Fixpoint mapOutcome {A B : Type} (f : A → Outcome B) (l : list A)
    : Outcome (list B) :=
  match l with
  | [] => Returned []
  | x :: rest =>
      match f x with
      | Rejected message => Rejected message
      | Returned y =>
          match mapOutcome f rest with
          | Rejected message => Rejected message
          | Returned ys => Returned (y :: ys)
          end
      end
  end.

Section Blog.
(** What the function gets from outside: Node's [path.join],
    [process.cwd()], the two calls on [fs], which throw when the directory
    or a file cannot be read, [META.exec(contents)], which gives the text of
    the first group when the expression matches, and [eval], which returns
    the value of that text or throws.  A post is an object: its own
    properties by name. *)
Context {Value : Type}.
Context (ofString : string → Value).
Context (path_join : list string → string).
Context (cwd : string).
Context (readdirSync : string → Outcome (list string)).
Context (readFileSync : string → Outcome string).
Context (META_exec : string → option string).
Context (evalMeta : string → Outcome (gmap string Value)).

(** [path.join(process.cwd(), "src", "content", "blog")]. *)
Definition DIR : string := path_join [cwd; "src"; "content"; "blog"].

(** The function mapped over the files. *)
Definition readPost (file : string) : Outcome (gmap string Value) :=
  (* grab the metadata *)
  let name := path_join [DIR; file] in
  match readFileSync name with
  | Rejected message => Rejected message
  | Returned contents =>
      match META_exec contents with
      | None => Rejected (name +:+ " needs to export const meta = {}")
      | Some source =>
          match evalMeta source with
          | Rejected message => Rejected message
          | Returned meta =>
              (* remove the ".mdx" from the filename *)
              let slug := removeMdxExtension file in
              (* { ...meta, slug } *)
              Returned (<["slug" := ofString slug]> meta)
          end
      end
  end.

(** [getBlogPostsData], an [async] function: the outcome is how the
    promise it returns settles. *)
Definition getBlogPostsData : Outcome (list (gmap string Value)) :=
  match readdirSync DIR with
  | Rejected message => Rejected message
  | Returned entries =>
      let files := List.filter (λ file, endsWith file ".mdx") entries in
      mapOutcome readPost files
  end.

End Blog.

(** An item of the feed, as [generateRssFeed] fills it. *)
Record FeedItem : Type := {
  item_title : string;
  item_id : string;
  item_link : string;
  item_description : string;
  item_content : string;
  item_date : string
}.

(** [feed.addItem(item)]. *)
Definition addItem (items : list FeedItem) (item : FeedItem) : list FeedItem :=
  items ++ [item].

(** The items [generateRssFeed] adds for [posts]; [siteURL] is
    [process.env.SITE_URL], which may be unset. *)
Definition feedItems (siteURL : option string) (posts : list TBlogPost)
    : list FeedItem :=
  foldl (λ items post,
           let url := default "undefined" siteURL +:+ "/blog/" +:+ slug post in
           addItem items
             {| item_title := title post; item_id := url; item_link := url;
                item_description := summary post;
                item_content := summary post;
                item_date := publishedAt post |})
        [] posts.

(** ** The chameleon text: [getNewColor], [changeColor] and [useInterval] *)

(** [getNewColor()], over the three numbers [random] drew. *)
Definition getNewColor (h s l : N) : string :=
  "hsl(" +:+ pretty h +:+ ", " +:+ pretty s +:+ "%, " +:+ pretty l +:+ "%)".

(** [changeColor()], for the colour [getNewColor()] returned.  The variable
    [root] caches [document.documentElement], the element whose style the
    page state holds. *)
Definition changeColor (newColor : string) : JS () :=
  style_setProperty "--color-chameleon" newColor.

Section UseInterval.
Context {Callback : Type} `{EqDecision Callback}.

(** What one use of the hook owns: the ref [savedCallback], the intervals
    whose handler is the hook's, the cleanup function its second effect
    returned last (the interval it clears), and the arguments of the last
    render, against which React compares the dependency lists.
    [nextIntervalId] is the id the next [setInterval] of the window
    returns. *)
Record Hook : Type := {
  savedCallback : option Callback;          (* None = undefined *)
  intervals : gmap nat Z;                   (* id ↦ delay *)
  nextIntervalId : nat;
  cleanup : option nat;
  rendered : option (Callback * option Z)   (* None = not mounted *)
}.

Definition setInterval (delay : Z) (hook : Hook) : nat * Hook :=
  (nextIntervalId hook,
   {| savedCallback := savedCallback hook;
      intervals := <[nextIntervalId hook := delay]> (intervals hook);
      nextIntervalId := S (nextIntervalId hook);
      cleanup := cleanup hook; rendered := rendered hook |}).

Definition clearInterval (intervalId : nat) (hook : Hook) : Hook :=
  {| savedCallback := savedCallback hook;
     intervals := delete intervalId (intervals hook);
     nextIntervalId := nextIntervalId hook;
     cleanup := cleanup hook; rendered := rendered hook |}.

Definition set_cleanup (c : option nat) (hook : Hook) : Hook :=
  {| savedCallback := savedCallback hook; intervals := intervals hook;
     nextIntervalId := nextIntervalId hook;
     cleanup := c; rendered := rendered hook |}.

Definition set_rendered (r : option (Callback * option Z)) (hook : Hook)
    : Hook :=
  {| savedCallback := savedCallback hook; intervals := intervals hook;
     nextIntervalId := nextIntervalId hook;
     cleanup := cleanup hook; rendered := r |}.

(** The body of [useEffect(() => {...}, [callback])]. *)
Definition saveCallbackEffect (callback : Callback) (hook : Hook) : Hook :=
  {| savedCallback := Some callback; intervals := intervals hook;
     nextIntervalId := nextIntervalId hook;
     cleanup := cleanup hook; rendered := rendered hook |}.

(** The body of [useEffect(() => {...}, [delay])]; [delay] is a number or
    [null].  What it returns becomes the cleanup. *)
Definition delayEffect (delay : option Z) (hook : Hook) : Hook :=
  match delay with
  | Some delay =>
      let '(intervalId, hook) := setInterval delay hook in
      set_cleanup (Some intervalId) hook
  | None => set_cleanup None hook
  end.

(** Running the cleanup of the second effect, if it returned one. *)
Definition runCleanup (hook : Hook) : Hook :=
  match cleanup hook with
  | Some intervalId => set_cleanup None (clearInterval intervalId hook)
  | None => hook
  end.

(** React renders the component that calls [useInterval(callback, delay)]:
    an effect runs on mount and when its dependency changed; cleanups of
    the effects that run again come first, then the bodies in the order of
    declaration. *)
Definition render (callback : Callback) (delay : option Z) (hook : Hook)
    : Hook :=
  let callbackChanged :=
    match rendered hook with
    | Some (previous, _) => bool_decide (previous ≠ callback)
    | None => true
    end in
  let delayChanged :=
    match rendered hook with
    | Some (_, previous) => bool_decide (previous ≠ delay)
    | None => true
    end in
  let hook := if delayChanged then runCleanup hook else hook in
  let hook := if callbackChanged then saveCallbackEffect callback hook
              else hook in
  let hook := if delayChanged then delayEffect delay hook else hook in
  set_rendered (Some (callback, delay)) hook.

Definition unmount (hook : Hook) : Hook :=
  set_rendered None (runCleanup hook).

(** An interval of the hook fires: its handler calls
    [savedCallback.current].  The result is the callback that runs. *)
Definition tick (intervalId : nat) (hook : Hook) : option Callback :=
  match intervals hook !! intervalId with
  | Some _ => savedCallback hook
  | None => None
  end.

(** Some other code of the page calls [setInterval]: an id is used up. *)
Definition elsewhere (hook : Hook) : Hook :=
  {| savedCallback := savedCallback hook; intervals := intervals hook;
     nextIntervalId := S (nextIntervalId hook);
     cleanup := cleanup hook; rendered := rendered hook |}.

Inductive HookEvent : Type :=
  | Render (callback : Callback) (delay : option Z)
  | Unmount
  | Elsewhere.

Definition hookStep (hook : Hook) (event : HookEvent) : Hook :=
  match event with
  | Render callback delay => render callback delay hook
  | Unmount => unmount hook
  | Elsewhere => elsewhere hook
  end.

(** The hook before its component has mounted. *)
Definition unmounted (firstId : nat) : Hook :=
  {| savedCallback := None; intervals := ∅; nextIntervalId := firstId;
     cleanup := None; rendered := None |}.

Definition hookAfter (firstId : nat) (history : list HookEvent) : Hook :=
  foldl hookStep (unmounted firstId) history.

(** What holds between renders. *)
Definition hookInvariant (hook : Hook) : Prop :=
  match rendered hook, cleanup hook with
  | Some (callback, Some delay), Some intervalId =>
      intervals hook = {[ intervalId := delay ]} ∧
      savedCallback hook = Some callback
  | Some (callback, None), None =>
      intervals hook = ∅ ∧ savedCallback hook = Some callback
  | None, None => intervals hook = ∅
  | _, _ => False
  end.

End UseInterval.

(** * Properties *)

(** ** Unfolding the monad *)

Ltac js_unfold :=
  unfold result, after, blockingSetInitialColorMode, setInitialColorMode,
    getInitialColorMode, storeUserSetPreference, localStorage_getItem,
    localStorage_setItem, matchMedia, style_setProperty,
    style_getPropertyValue, setAttribute, removeAttribute, stored,
    colorSchemeQuery,
    store_readable, store_writable in *;
  unfold mbind, mret, JS_bind, JS_ret in *.

Lemma typeof_string (v : JSValue) :
  typeof v = "string" ↔ ∃ s, v = JString s.
Proof.
  split.
  - destruct v; simpl; try discriminate. eauto.
  - intros [s ->]. reflexivity.
Qed.

Lemma typeof_boolean (v : JSValue) :
  typeof v = "boolean" ↔ ∃ b, v = JBool b.
Proof.
  split.
  - destruct v; simpl; try discriminate. eauto.
  - intros [b ->]. reflexivity.
Qed.

(** [getInitialColorMode] only reads: whatever it returns or throws, the
    page is the one it started from. *)
Lemma getInitialColorMode_pure (window : Window) (p : Page) :
  after (getInitialColorMode window) p = p.
Proof.
  js_unfold.
  destruct (getItem_throws window); [reflexivity|].
  destruct (localStorage p !! "theme"); simpl; [reflexivity|].
  destruct (matchMedia_answer window _) as [mql|e]; [|reflexivity].
  destruct (matches mql); reflexivity.
Qed.

(** The three tiers of [getInitialColorMode], one equation each. *)
Lemma getInitialColorMode_explicit (window : Window) (p : Page) (s : string) :
  store_readable window → stored p = Some s →
  result (getInitialColorMode window) p = Normal s.
Proof. js_unfold. intros -> ->. reflexivity. Qed.

Lemma getInitialColorMode_implicit (window : Window) (p : Page)
    (mql : MediaQueryList) :
  store_readable window → stored p = None →
  matchMedia_answer window colorSchemeQuery = Normal mql →
  result (getInitialColorMode window) p =
    Normal (match matches mql with JBool true => "dark" | _ => "light" end).
Proof.
  js_unfold. intros -> -> ->. simpl.
  destruct (matches mql) as [| |[]| |]; reflexivity.
Qed.

Lemma getInitialColorMode_get_throws (window : Window) (p : Page) (e : Exn) :
  getItem_throws window = Some e →
  result (getInitialColorMode window) p = Throw e.
Proof. js_unfold. intros ->. reflexivity. Qed.

Lemma getInitialColorMode_query_throws (window : Window) (p : Page) (e : Exn) :
  store_readable window → stored p = None →
  matchMedia_answer window colorSchemeQuery = Throw e →
  result (getInitialColorMode window) p = Throw e.
Proof. js_unfold. intros -> -> ->. reflexivity. Qed.

(** ** Resolution *)

(** C1, as the specification states it, fails: a stored string that is
    neither token is used all the same.  With [theme = "batman"] in the
    store, a readable store and a signal that matches, [getInitialColorMode]
    returns ["batman"]. *)
Lemma resolve_returns_invalid_stored_value :
  let p := freshPage {[ "theme" := "batman" ]} in
  stored p = Some "batman" ∧
  result (getInitialColorMode (window_with (JBool true))) p = Normal "batman" ∧
  ¬ valid_token "batman".
Proof.
  split; [reflexivity|]. split; [reflexivity|].
  intros [H|H]; discriminate H.
Qed.

(** C1, amended: when the store can be read, [getInitialColorMode] uses the
    stored value whenever there is one, whatever string it is; and when the
    stored value is one of the two tokens, or nothing is stored and the
    media query answers, the result is exactly ["light"] or ["dark"]. *)
Theorem resolve_uses_any_stored_string (window : Window) (p : Page) :
  store_readable window →
  (∀ s, stored p = Some s →
        result (getInitialColorMode window) p = Normal s) ∧
  ((∃ s, stored p = Some s ∧ valid_token s) ∨
   (stored p = None ∧
    ∃ mql, matchMedia_answer window colorSchemeQuery = Normal mql) →
   ∃ v, result (getInitialColorMode window) p = Normal v ∧ valid_token v).
Proof.
  intros Hget. split.
  - intros s Hs. by apply getInitialColorMode_explicit.
  - intros [(s & Hs & Hv)|(Hnone & mql & Hmql)].
    + exists s. split; [by apply getInitialColorMode_explicit | done].
    + eexists. split; [by apply getInitialColorMode_implicit|].
      destruct (matches mql) as [| |[]| |]; (by left) || (by right).
Qed.

Lemma resolve_uses_any_stored_string_witness :
  (result (getInitialColorMode (window_with JUndefined))
     (freshPage {[ "theme" := "sepia" ]}) = Normal "sepia") ∧
  (∃ v, result (getInitialColorMode (window_with JUndefined))
          (freshPage {[ "theme" := "dark" ]}) = Normal v ∧ valid_token v).
Proof.
  split.
  - apply (resolve_uses_any_stored_string (window_with JUndefined)
             (freshPage {[ "theme" := "sepia" ]})); reflexivity.
  - apply (resolve_uses_any_stored_string (window_with JUndefined)
             (freshPage {[ "theme" := "dark" ]})); [reflexivity|].
    left. exists "dark". split; [reflexivity | right; reflexivity].
Defined.

(** C3: a stored ["light"] or ["dark"] is returned as it is, whatever the
    media query would answer (true, false, not a boolean, or an
    exception): the query is not reached. *)
Theorem resolve_explicit_wins (window : Window) (p : Page) (v : string) :
  store_readable window → valid_token v → stored p = Some v →
  result (getInitialColorMode window) p = Normal v.
Proof. intros Hget _ Hv. by apply getInitialColorMode_explicit. Qed.

Lemma resolve_explicit_wins_witness :
  result (getInitialColorMode (window_with (JBool false)))
    (freshPage {[ "theme" := "dark" ]}) = Normal "dark".
Proof.
  apply resolve_explicit_wins;
    [reflexivity | right; reflexivity | reflexivity].
Defined.

(** C4: with nothing stored, the answer of the media query decides:
    ["dark"] exactly when [matches] is [true], ["light"] when it is [false],
    and the default ["light"] when [matches] is not a boolean. *)
Theorem resolve_follows_signal (window : Window) (p : Page)
    (mql : MediaQueryList) :
  store_readable window → stored p = None →
  matchMedia_answer window colorSchemeQuery = Normal mql →
  (result (getInitialColorMode window) p = Normal "dark" ↔
     matches mql = JBool true) ∧
  (matches mql = JBool false →
     result (getInitialColorMode window) p = Normal "light") ∧
  (typeof (matches mql) ≠ "boolean" →
     result (getInitialColorMode window) p = Normal "light").
Proof.
  intros Hget Hnone Hmql.
  rewrite (getInitialColorMode_implicit window p mql Hget Hnone Hmql).
  destruct (matches mql) as [| |[]| |]; simpl;
    (split; [split; intros H; (done || (by inversion H)) |]);
    split; intros H; done.
Qed.

Lemma resolve_follows_signal_witness :
  (result (getInitialColorMode (window_with (JBool true))) (freshPage ∅)
     = Normal "dark" ↔ JBool true = JBool true) ∧
  (JBool true = JBool false →
     result (getInitialColorMode (window_with (JBool true))) (freshPage ∅)
       = Normal "light") ∧
  (typeof (JBool true) ≠ "boolean" →
     result (getInitialColorMode (window_with (JBool true))) (freshPage ∅)
       = Normal "light").
Proof.
  apply (resolve_follows_signal (window_with (JBool true)) (freshPage ∅)
           {| matches := JBool true; media := colorSchemeQuery |});
    reflexivity.
Defined.

(** ** The component, unfolded *)

(** The attributes of the root after the [[darkTheme]] effect ran for
    [checked]. *)
Lemma darkThemeEffect_run (window : Window) (checked : bool) (p : Page) :
  darkThemeEffect window (Some checked) p =
    let attrs := if checked
                 then <["data-theme" := "dark"]> (attributes p)
                 else delete "data-theme" (attributes p) in
    match setItem_throws window with
    | Some e => (Throw e, set_attributes attrs p)
    | None =>
        (Normal (),
         set_localStorage (<["theme" := token checked]> (localStorage p))
           (set_attributes attrs p))
    end.
Proof.
  unfold darkThemeEffect. js_unfold.
  destruct checked; simpl; destruct (setItem_throws window); reflexivity.
Qed.

Lemma toggle_run (window : Window) (checked : bool) (p : Page) :
  toggle window checked p =
    if bool_decide (darkTheme p = Some checked)
    then (Normal (), set_darkTheme (Some checked) p)
    else darkThemeEffect window (Some checked) (set_darkTheme (Some checked) p).
Proof.
  unfold toggle, rerender, handleToggle, setDarkTheme, readDarkTheme.
  js_unfold. simpl.
  destruct (decide (darkTheme p = Some checked)) as [Heq|Hne].
  - rewrite !bool_decide_eq_true_2; done.
  - rewrite !bool_decide_eq_false_2; done.
Qed.

Lemma mount_run (window : Window) (p : Page) :
  mount window p =
    darkThemeEffect window (Some (initiallyDark p))
      (set_darkTheme (Some (initiallyDark p)) p).
Proof.
  unfold mount, useState_undefined, initialColorEffect, rerender,
    setDarkTheme, readDarkTheme, initiallyDark.
  js_unfold. simpl. reflexivity.
Qed.

Lemma pageLoad_run (window : Window) (store : gmap string string) :
  let p1 := after (setInitialColorMode window) (freshPage store) in
  pageLoad window store =
    ([ Executed (result (setInitialColorMode window) (freshPage store));
       Painted p1;
       Executed (result (mount window) p1) ],
     after (mount window) p1).
Proof.
  unfold pageLoad, load, MyDocument_render, blockingSetInitialColorMode,
    result, after. simpl.
  destruct (setInitialColorMode window (freshPage store)) as [c p1]. simpl.
  destruct (mount window p1) as [c2 p2]. reflexivity.
Qed.

Lemma setInitialColorMode_run (window : Window) (p : Page) :
  setInitialColorMode window p =
    match result (getInitialColorMode window) p with
    | Throw e => (Throw e, p)
    | Normal colorMode =>
        (style_setProperty "--initial-color-mode" colorMode;;
         if bool_decide (colorMode = "dark")
         then setAttribute "data-theme" "dark"
         else mret ()) p
    end.
Proof.
  pose proof (getInitialColorMode_pure window p) as Hpure.
  unfold setInitialColorMode, result, after in *.
  unfold mbind at 1. unfold JS_bind at 1.
  destruct (getInitialColorMode window p) as [[colorMode|e] p'];
    simpl in *; subst p'; reflexivity.
Qed.

Lemma setInitialColorMode_throws (window : Window) (p : Page) (e : Exn) :
  result (getInitialColorMode window) p = Throw e →
  setInitialColorMode window p = (Throw e, p).
Proof. intros H. rewrite setInitialColorMode_run, H. reflexivity. Qed.

Lemma setInitialColorMode_store (window : Window) (p : Page) :
  localStorage (after (setInitialColorMode window) p) = localStorage p.
Proof.
  unfold after. rewrite setInitialColorMode_run.
  destruct (result (getInitialColorMode window) p) as [colorMode|e];
    [|reflexivity].
  js_unfold. simpl. destruct (bool_decide (colorMode = "dark")); reflexivity.
Qed.

(** ** Failures *)

(** C2, as the specification states it, fails: nothing in the listings
    catches an exception.  With a storage that throws [SecurityError],
    [getInitialColorMode] throws it instead of returning ["light"], and so
    does the toggle; with an empty store and a [matchMedia] that throws,
    [getInitialColorMode] throws as well. *)
Lemma resolve_propagates_store_failure :
  result (getInitialColorMode window_without_storage) (freshPage ∅)
    = Throw SecurityError ∧
  result (getInitialColorMode window_without_storage) (freshPage ∅)
    ≠ Normal "light" ∧
  result (getInitialColorMode window_without_matchMedia) (freshPage ∅)
    = Throw TypeError ∧
  result (toggle window_without_storage true) (freshPage ∅)
    = Throw SecurityError.
Proof. repeat split; (reflexivity || discriminate). Qed.

(** C2, amended: a failure of the store or of the media query is not
    caught.  If [getItem] throws, or if nothing is stored and [matchMedia]
    throws, [getInitialColorMode] and [setInitialColorMode] throw the same
    exception and apply nothing to the page.  If [setItem] throws, a toggle
    that changes the mode throws the same exception to React after it has
    updated the [data-theme] attribute, and the store keeps its content.
    The default ["light"] is returned only by falling through: a readable
    store without preference and a [matches] that is not a boolean. *)
Theorem failures_propagate (window : Window) (p : Page) (e : Exn) :
  (getItem_throws window = Some e ∨
   (store_readable window ∧ stored p = None ∧
    matchMedia_answer window colorSchemeQuery = Throw e) →
   result (getInitialColorMode window) p = Throw e ∧
   result (setInitialColorMode window) p = Throw e ∧
   after (setInitialColorMode window) p = p) ∧
  (∀ checked, setItem_throws window = Some e →
     darkTheme p ≠ Some checked →
     result (toggle window checked) p = Throw e ∧
     localStorage (after (toggle window checked) p) = localStorage p ∧
     attributes (after (toggle window checked) p) !! "data-theme"
       = (if checked then Some "dark" else None)) ∧
  (∀ mql, store_readable window → stored p = None →
     matchMedia_answer window colorSchemeQuery = Normal mql →
     typeof (matches mql) ≠ "boolean" →
     result (getInitialColorMode window) p = Normal "light").
Proof.
  split; [|split].
  - intros H.
    assert (result (getInitialColorMode window) p = Throw e) as Hthrow.
    { destruct H as [H|(Hget & Hnone & Hq)].
      - by apply getInitialColorMode_get_throws.
      - by apply getInitialColorMode_query_throws. }
    split; [done|].
    unfold result, after at 1.
    by rewrite (setInitialColorMode_throws window p e Hthrow).
  - intros checked Hset Hne.
    unfold result, after. rewrite toggle_run.
    rewrite bool_decide_eq_false_2 by done.
    rewrite darkThemeEffect_run, Hset. simpl.
    split; [done|]. split; [done|].
    destruct checked; [apply lookup_insert_eq | apply lookup_delete_eq].
  - intros mql Hget Hnone Hq Hty.
    rewrite (getInitialColorMode_implicit window p mql Hget Hnone Hq).
    destruct (matches mql) as [| |b| |]; try reflexivity.
    by destruct Hty.
Qed.

Lemma failures_propagate_witness :
  (result (getInitialColorMode window_without_storage) (freshPage ∅)
     = Throw SecurityError ∧
   result (setInitialColorMode window_without_storage) (freshPage ∅)
     = Throw SecurityError ∧
   after (setInitialColorMode window_without_storage) (freshPage ∅)
     = freshPage ∅) ∧
  (result (toggle window_without_storage true) (freshPage ∅)
     = Throw SecurityError ∧
   localStorage (after (toggle window_without_storage true) (freshPage ∅))
     = ∅ ∧
   attributes (after (toggle window_without_storage true) (freshPage ∅))
     !! "data-theme" = Some "dark") ∧
  result (getInitialColorMode (window_with JUndefined)) (freshPage ∅)
    = Normal "light".
Proof.
  destruct (failures_propagate window_without_storage (freshPage ∅)
              SecurityError) as (Hresolve & Htoggle & _).
  destruct (failures_propagate (window_with JUndefined) (freshPage ∅)
              TypeError) as (_ & _ & Hdefault).
  split; [|split].
  - apply Hresolve. left. reflexivity.
  - apply (Htoggle true); [reflexivity | discriminate].
  - apply (Hdefault {| matches := JUndefined; media := colorSchemeQuery |});
      [reflexivity | reflexivity | reflexivity | discriminate].
Defined.

(** ** Toggling *)

Lemma set_darkTheme_id (p : Page) (d : option bool) :
  darkTheme p = d → set_darkTheme d p = p.
Proof. destruct p. simpl. by intros <-. Qed.

Lemma toggle_darkTheme (window : Window) (checked : bool) (p : Page) :
  darkTheme (after (toggle window checked) p) = Some checked.
Proof.
  unfold after. rewrite toggle_run. case_bool_decide; [reflexivity|].
  rewrite darkThemeEffect_run. destruct (setItem_throws window); reflexivity.
Qed.

Lemma mount_darkTheme (window : Window) (p : Page) :
  darkTheme (after (mount window) p) = Some (initiallyDark p).
Proof.
  unfold after. rewrite mount_run, darkThemeEffect_run.
  destruct (setItem_throws window); reflexivity.
Qed.

(** Once the effect has run against a writable store, the store holds the
    token of the mode. *)
Lemma darkThemeEffect_stored (window : Window) (checked : bool) (p : Page) :
  store_writable window →
  stored (after (darkThemeEffect window (Some checked)) p)
    = Some (token checked).
Proof.
  unfold store_writable, after, stored. intros Hset.
  rewrite darkThemeEffect_run, Hset. simpl. apply lookup_insert_eq.
Qed.

Lemma mount_synced (window : Window) (p : Page) :
  store_writable window → synced (after (mount window) p).
Proof.
  intros Hset b Hb. rewrite mount_darkTheme in Hb. injection Hb as <-.
  unfold after. rewrite mount_run.
  by apply (darkThemeEffect_stored window).
Qed.

Lemma toggle_stored (window : Window) (checked : bool) (p : Page) :
  store_writable window →
  synced p ∨ darkTheme p ≠ Some checked →
  stored (after (toggle window checked) p) = Some (token checked).
Proof.
  intros Hset Hp. unfold after. rewrite toggle_run.
  case_bool_decide as Hd.
  - destruct Hp as [Hsync|Hne]; [|done]. by apply Hsync.
  - by apply (darkThemeEffect_stored window).
Qed.

Lemma toggle_synced (window : Window) (checked : bool) (p : Page) :
  store_writable window → synced p →
  synced (after (toggle window checked) p).
Proof.
  intros Hset Hsync b Hb. rewrite toggle_darkTheme in Hb. injection Hb as <-.
  apply toggle_stored; auto.
Qed.

Lemma reachable_synced (window : Window) (p : Page) :
  store_writable window → reachable window p → synced p.
Proof.
  intros Hset Hreach. induction Hreach as [store|p checked _ IH].
  - rewrite pageLoad_run. simpl. by apply mount_synced.
  - by apply toggle_synced.
Qed.

(** C5: after [toggle(x)], on a page reached by a load and any toggles (or
    on any page whose checkbox was in the other position), a reload resolves
    to [x]: [getInitialColorMode], run in a fresh page over the store the
    toggle left, returns [x], whatever the media query says then. *)
Theorem toggle_then_resolve (window reloaded : Window) (p : Page) (x : string) :
  valid_token x →
  store_writable window → store_readable reloaded →
  reachable window p ∨ darkTheme p ≠ Some (bool_decide (x = "dark")) →
  let store' :=
    localStorage (after (toggle window (bool_decide (x = "dark"))) p) in
  result (getInitialColorMode reloaded) (freshPage store') = Normal x.
Proof.
  intros Hx Hset Hget Hp store'.
  apply getInitialColorMode_explicit; [done|].
  assert (token (bool_decide (x = "dark")) = x) as Htok.
  { destruct Hx as [-> | ->]; reflexivity. }
  transitivity (Some (token (bool_decide (x = "dark"))));
    [|by rewrite Htok].
  apply (toggle_stored window); [done|].
  destruct Hp as [Hreach|Hne]; [left | by right].
  by apply (reachable_synced window).
Qed.

Lemma toggle_then_resolve_witness :
  result (getInitialColorMode (window_with (JBool true)))
    (freshPage
       (localStorage
          (after (toggle (window_with (JBool true)) (bool_decide ("light" = "dark")))
             (pageLoad (window_with (JBool true)) ∅).2)))
  = Normal "light".
Proof.
  apply (toggle_then_resolve (window_with (JBool true))
           (window_with (JBool true))
           (pageLoad (window_with (JBool true)) ∅).2 "light").
  - left. reflexivity.
  - reflexivity.
  - reflexivity.
  - left. apply reachable_load.
Defined.

(** C6: a second [toggle(dark)] (or [toggle(light)]) right after the first
    changes nothing: store, style, attributes and component state are those
    the first one left.  React does not even run the effect again, and the
    body of the effect is idempotent by itself. *)
Theorem toggle_idempotent (window : Window) (checked : bool) (p : Page) :
  after (toggle window checked) (after (toggle window checked) p)
    = after (toggle window checked) p ∧
  after (darkThemeEffect window (Some checked))
    (after (darkThemeEffect window (Some checked)) p)
    = after (darkThemeEffect window (Some checked)) p.
Proof.
  split.
  - pose proof (toggle_darkTheme window checked p) as Hd.
    set (p' := after (toggle window checked) p) in *.
    unfold after at 1. rewrite toggle_run.
    rewrite bool_decide_eq_true_2 by done. simpl.
    by apply set_darkTheme_id.
  - unfold after. rewrite !darkThemeEffect_run.
    destruct (setItem_throws window); destruct checked; simpl;
      unfold set_attributes, set_localStorage; simpl;
      rewrite ?insert_insert_eq, ?delete_delete_eq; reflexivity.
Qed.

(** ** What is written to the store *)

(** C7: the store does not survive a page load unchanged, although the
    user never toggled.  Starting from an empty store, with a media query
    that cannot answer, the blocking script resolves to ["light"] and
    leaves the store empty; the hydration of [IndexPage] then stores
    ["light"] under [theme]: its first effect sets [darkTheme] from
    [undefined] to [false], which makes the [[darkTheme]] effect run and
    call [storeUserSetPreference]. *)
Lemma hydration_writes_store :
  localStorage (after (setInitialColorMode (window_with JUndefined))
                  (freshPage ∅)) = ∅ ∧
  localStorage (pageLoad (window_with JUndefined) ∅).2 !! "theme"
    = Some "light" ∧
  localStorage (pageLoad (window_with JUndefined) ∅).2 ≠ ∅.
Proof.
  assert (localStorage (pageLoad (window_with JUndefined) ∅).2 !! "theme"
            = Some "light") as H by reflexivity.
  split; [reflexivity|]. split; [exact H|].
  intros Heq. rewrite Heq in H. discriminate H.
Qed.

(** The resolution step by itself never writes the store: for every store
    and signal the store after [getInitialColorMode] and after
    [setInitialColorMode] is the store before. *)
Lemma resolve_never_writes_store (window : Window) :
  (∀ p, localStorage (after (getInitialColorMode window) p) = localStorage p) ∧
  (∀ p, localStorage (after (setInitialColorMode window) p) = localStorage p).
Proof.
  split.
  - intros p. by rewrite getInitialColorMode_pure.
  - apply setInitialColorMode_store.
Qed.

Lemma run_store_step (window : Window) (op : Operation) (p : Page) :
  store_step (localStorage p) (localStorage (after (run window op) p)).
Proof.
  destruct op as [| |checked]; simpl.
  - left. apply setInitialColorMode_store.
  - unfold after. rewrite mount_run, darkThemeEffect_run.
    destruct (setItem_throws window); simpl; [by left|].
    right. by exists (initiallyDark p).
  - unfold after. rewrite toggle_run. case_bool_decide; [by left|].
    rewrite darkThemeEffect_run.
    destruct (setItem_throws window); simpl; [by left|].
    right. by exists checked.
Qed.

Lemma store_step_other_keys (m m' : gmap string string) (k : string) :
  store_step m m' → k ≠ "theme" → m' !! k = m !! k.
Proof.
  intros [->|[checked ->]] Hk; [done|]. by rewrite lookup_insert_ne.
Qed.

Lemma store_step_theme (m m' : gmap string string) :
  store_step m m' →
  m' !! "theme" = m !! "theme" ∨ ∃ checked, m' !! "theme" = Some (token checked).
Proof.
  intros [->|[checked ->]]; [by left|].
  right. exists checked. apply lookup_insert_eq.
Qed.

(** C8: every operation of the resolver leaves the store as it is or puts
    the string ["light"] or ["dark"] under the key [theme]; after any
    sequence of operations every other key holds what it held, and [theme]
    holds what it held or one of the two tokens.  A write replaces the
    previous preference: the store has one value under [theme]. *)
Theorem store_holds_tokens_only (window : Window) :
  (∀ op p, store_step (localStorage p) (localStorage (after (run window op) p))) ∧
  (∀ ops p,
     (∀ k, k ≠ "theme" →
           localStorage (run_all window ops p) !! k = localStorage p !! k) ∧
     (stored (run_all window ops p) = stored p ∨
      ∃ v, stored (run_all window ops p) = Some v ∧ valid_token v)) ∧
  (∀ pref old p, store_writable window → stored p = Some old →
     localStorage (after (storeUserSetPreference window pref) p)
       = <["theme" := pref]> (delete "theme" (localStorage p)) ∧
     stored (after (storeUserSetPreference window pref) p) = Some pref).
Proof.
  split; [apply run_store_step|]. split.
  - intros ops. induction ops as [|op ops IH]; intros p.
    + split; [done | by left].
    + simpl. destruct (IH (after (run window op) p)) as [IHk IHt].
      pose proof (run_store_step window op p) as Hstep.
      split.
      * intros k Hk. rewrite IHk by done. by apply store_step_other_keys.
      * destruct IHt as [IHt|IHt]; [|by right].
        unfold stored in *. rewrite IHt.
        destruct (store_step_theme _ _ Hstep) as [Hsame|[checked Hc]];
          [by left|].
        right. exists (token checked). split; [done|].
        destruct checked; [by right | by left].
  - intros pref old p Hset Hold. js_unfold. rewrite Hset. simpl.
    split; [by rewrite insert_delete_eq | apply lookup_insert_eq].
Qed.

Lemma store_holds_tokens_only_witness :
  localStorage (after (storeUserSetPreference (window_with JNull) "dark")
                  (freshPage {[ "theme" := "light" ]}))
    = <["theme" := "dark"]>
        (delete "theme" (localStorage (freshPage {[ "theme" := "light" ]}))) ∧
  stored (after (storeUserSetPreference (window_with JNull) "dark")
            (freshPage {[ "theme" := "light" ]})) = Some "dark".
Proof.
  destruct (store_holds_tokens_only (window_with JNull)) as (_ & _ & Hset).
  apply (Hset "dark" "light" (freshPage {[ "theme" := "light" ]}));
    reflexivity.
Defined.

(** ** What the document shows *)

Lemma setInitialColorMode_applied (window : Window) (p : Page)
    (colorMode : string) :
  result (getInitialColorMode window) p = Normal colorMode →
  result (style_getPropertyValue "--initial-color-mode")
    (after (setInitialColorMode window) p) = Normal colorMode ∧
  attributes (after (setInitialColorMode window) p) !! "data-theme"
    = (if bool_decide (colorMode = "dark")
       then Some "dark"
       else attributes p !! "data-theme").
Proof.
  intros Hmode. unfold after. rewrite setInitialColorMode_run, Hmode.
  clear Hmode. js_unfold. simpl. split.
  - f_equal.
    repeat case_bool_decide; subst; simpl;
      rewrite ?lookup_insert_eq, ?lookup_delete_eq; done.
  - case_bool_decide; simpl; [apply lookup_insert_eq | reflexivity].
Qed.

Lemma darkThemeEffect_attribute (window : Window) (checked : bool) (p : Page) :
  attributes (after (darkThemeEffect window (Some checked)) p) !! "data-theme"
    = (if checked then Some "dark" else None).
Proof.
  unfold after. rewrite darkThemeEffect_run.
  destruct (setItem_throws window); simpl;
    (destruct checked; [apply lookup_insert_eq | apply lookup_delete_eq]).
Qed.

Lemma mount_tracks_mode (window : Window) (p : Page) :
  attribute_tracks_mode (after (mount window) p).
Proof.
  exists (initiallyDark p). split; [apply mount_darkTheme|].
  unfold after. rewrite mount_run. apply (darkThemeEffect_attribute window).
Qed.

Lemma toggle_tracks_mode (window : Window) (checked : bool) (p : Page) :
  attribute_tracks_mode p →
  attribute_tracks_mode (after (toggle window checked) p).
Proof.
  intros (b & Hb & Hattr). exists checked.
  split; [apply toggle_darkTheme|].
  unfold after. rewrite toggle_run. case_bool_decide as Hd.
  - simpl. rewrite Hattr. rewrite Hb in Hd. by injection Hd as ->.
  - apply (darkThemeEffect_attribute window).
Qed.

Lemma reachable_tracks_mode (window : Window) (p : Page) :
  reachable window p → attribute_tracks_mode p.
Proof.
  induction 1 as [store|p checked _ IH].
  - rewrite pageLoad_run. simpl. apply mount_tracks_mode.
  - by apply toggle_tracks_mode.
Qed.

(** C10: the root element carries [data-theme="dark"] exactly when the mode
    is dark, and no [data-theme] when it is light.  On a fresh document
    [setInitialColorMode] sets the attribute only if it resolved to
    ["dark"]; on every page reached by a load and any toggles the attribute
    agrees with [darkTheme]; and a toggle to light removes the attribute,
    a toggle to dark sets it to ["dark"]. *)
Theorem data_theme_tracks_mode (window : Window) :
  (∀ store,
     attributes (after (setInitialColorMode window) (freshPage store))
       !! "data-theme"
     = match result (getInitialColorMode window) (freshPage store) with
       | Normal colorMode =>
           if bool_decide (colorMode = "dark") then Some "dark" else None
       | Throw _ => None
       end) ∧
  (∀ p, reachable window p → attribute_tracks_mode p) ∧
  (∀ p checked, reachable window p →
     attributes (after (toggle window checked) p) !! "data-theme"
       = (if checked then Some "dark" else None)).
Proof.
  split; [|split].
  - intros store.
    destruct (result (getInitialColorMode window) (freshPage store))
      as [colorMode|e] eqn:Hmode.
    + destruct (setInitialColorMode_applied window _ colorMode Hmode)
        as [_ ->].
      by case_bool_decide.
    + unfold after. by rewrite (setInitialColorMode_throws window _ e Hmode).
  - apply reachable_tracks_mode.
  - intros p checked Hreach.
    destruct (reachable_tracks_mode window _
                (reachable_toggle window p checked Hreach))
      as (b & Hb & Hattr).
    rewrite toggle_darkTheme in Hb. by injection Hb as <-.
Qed.

Lemma data_theme_tracks_mode_witness :
  attribute_tracks_mode (pageLoad (window_with (JBool true)) ∅).2 ∧
  attributes (after (toggle (window_with (JBool true)) false)
                (pageLoad (window_with (JBool true)) ∅).2) !! "data-theme"
    = None.
Proof.
  destruct (data_theme_tracks_mode (window_with (JBool true)))
    as (_ & Hinv & Htoggle).
  split.
  - apply Hinv. apply reachable_load.
  - apply (Htoggle _ false). apply reachable_load.
Defined.

(** * Further properties of the listings *)

(** ** The mode a page load settles in *)

Lemma getInitialColorMode_settles (window : Window)
    (store : gmap string string) :
  store_readable window → resolvable window store →
  ∃ colorMode,
    result (getInitialColorMode window) (freshPage store) = Normal colorMode ∧
    valid_token colorMode ∧
    bool_decide (colorMode = "dark") = settlesDark window store.
Proof.
  intros Hget [(s & Hs & Hv)|(Hnone & mql & Hq)]; unfold settlesDark.
  - exists s. rewrite Hs. split; [|done].
    by apply getInitialColorMode_explicit.
  - rewrite Hnone, Hq. eexists. split; [|split].
    + by apply getInitialColorMode_implicit.
    + destruct (matches mql) as [| |[]| |]; (by left) || (by right).
    + destruct (matches mql) as [| |[]| |]; reflexivity.
Qed.

Lemma setInitialColorMode_initiallyDark (window : Window) (p : Page)
    (colorMode : string) :
  result (getInitialColorMode window) p = Normal colorMode →
  initiallyDark (after (setInitialColorMode window) p)
    = bool_decide (colorMode = "dark").
Proof.
  intros Hmode.
  destruct (setInitialColorMode_applied window p colorMode Hmode)
    as [Hstyle _].
  unfold initiallyDark. unfold result, style_getPropertyValue in Hstyle.
  simpl in Hstyle. injection Hstyle as ->. reflexivity.
Qed.

Lemma mount_attribute (window : Window) (p : Page) :
  attributes (after (mount window) p) !! "data-theme"
    = (if initiallyDark p then Some "dark" else None).
Proof.
  unfold after. rewrite mount_run. apply (darkThemeEffect_attribute window).
Qed.

Lemma mount_result (window : Window) (p : Page) :
  store_writable window → result (mount window) p = Normal ().
Proof.
  unfold store_writable, result. intros Hset.
  by rewrite mount_run, darkThemeEffect_run, Hset.
Qed.

(** X1: once [IndexPage] is hydrated, the checkbox shows the mode the
    blocking script resolved.  With a store that can be read and written
    and that holds nothing or a token (and a media query that answers when
    it is asked), the effects of the mount do not throw, [darkTheme] is
    [true] exactly when [getInitialColorMode] returned ["dark"], and the
    [data-theme] attribute is set exactly then. *)
Theorem hydration_shows_resolved_mode (window : Window)
    (store : gmap string string) :
  store_readable window → store_writable window →
  resolvable window store →
  ∃ colorMode,
    result (getInitialColorMode window) (freshPage store) = Normal colorMode ∧
    result (mount window) (after (setInitialColorMode window) (freshPage store))
      = Normal () ∧
    darkTheme (pageLoad window store).2
      = Some (bool_decide (colorMode = "dark")) ∧
    attributes (pageLoad window store).2 !! "data-theme"
      = (if bool_decide (colorMode = "dark") then Some "dark" else None).
Proof.
  intros Hget Hset Hres.
  destruct (getInitialColorMode_settles window store Hget Hres)
    as (colorMode & Hmode & _ & _).
  exists colorMode. split; [done|].
  split; [by apply mount_result|].
  rewrite pageLoad_run. simpl.
  rewrite mount_darkTheme.
  rewrite (setInitialColorMode_initiallyDark window _ colorMode Hmode).
  split; [done|].
  rewrite mount_attribute.
  by rewrite (setInitialColorMode_initiallyDark window _ colorMode Hmode).
Qed.

Lemma hydration_shows_resolved_mode_witness :
  ∃ colorMode,
    result (getInitialColorMode (window_with (JBool true))) (freshPage ∅)
      = Normal colorMode ∧
    result (mount (window_with (JBool true)))
      (after (setInitialColorMode (window_with (JBool true))) (freshPage ∅))
      = Normal () ∧
    darkTheme (pageLoad (window_with (JBool true)) ∅).2
      = Some (bool_decide (colorMode = "dark")) ∧
    attributes (pageLoad (window_with (JBool true)) ∅).2 !! "data-theme"
      = (if bool_decide (colorMode = "dark") then Some "dark" else None).
Proof.
  apply (hydration_shows_resolved_mode (window_with (JBool true)) ∅).
  - reflexivity.
  - reflexivity.
  - right. split; [reflexivity|]. eexists. reflexivity.
Defined.

(** X2: a reload comes back in the mode the page was showing.  On every
    page reached by a load and any toggles, with a writable store,
    [darkTheme] is known and [getInitialColorMode], run in a fresh page over
    the store as it stands, returns its token, whatever the media query
    answers at that time. *)
Theorem reload_restores_shown_mode (window reloaded : Window) (p : Page) :
  store_writable window → store_readable reloaded →
  reachable window p →
  ∃ b, darkTheme p = Some b ∧
       result (getInitialColorMode reloaded) (freshPage (localStorage p))
         = Normal (token b).
Proof.
  intros Hset Hget Hreach.
  destruct (reachable_tracks_mode window p Hreach) as (b & Hb & _).
  exists b. split; [done|].
  apply getInitialColorMode_explicit; [done|].
  by apply (reachable_synced window p Hset Hreach).
Qed.

Lemma reload_restores_shown_mode_witness :
  ∃ b, darkTheme (pageLoad (window_with (JBool true)) ∅).2 = Some b ∧
       result (getInitialColorMode (window_with (JBool false)))
         (freshPage (localStorage (pageLoad (window_with (JBool true)) ∅).2))
         = Normal (token b).
Proof.
  apply (reload_restores_shown_mode (window_with (JBool true))
           (window_with (JBool false))).
  - reflexivity.
  - reflexivity.
  - apply reachable_load.
Defined.

(** ** Colours *)

(** The colours of the body, read off the [data-theme] attribute of the
    root, as long as the inline style of the root does not set the two
    custom properties itself. *)
Lemma body_colours (p : Page) :
  style p !! "--color-background" = None →
  style p !! "--color-primary" = None →
  let dark := bool_decide (attributes p !! "data-theme" = Some "dark") in
  bodyProperty styles_css p "background-color"
    = Some (if dark then "#000" else "#fff") ∧
  bodyProperty styles_css p "color"
    = Some (if dark then "#fff" else "#000").
Proof.
  intros Hbg Hfg dark.
  assert (declared styles_css bodyElement !! "background-color"
            = Some (Var "--color-background")) as Hb1 by reflexivity.
  assert (declared styles_css bodyElement !! "color"
            = Some (Var "--color-primary")) as Hb2 by reflexivity.
  assert (declared styles_css bodyElement !! "--color-background" = None)
    as Hb3 by reflexivity.
  assert (declared styles_css bodyElement !! "--color-primary" = None)
    as Hb4 by reflexivity.
  assert (declared styles_css (rootElement p) !! "--color-background"
            = Some (Lit (if dark then "#000" else "#fff"))) as Hr1.
  { unfold declared, styles_css. simpl. fold dark.
    destruct dark; vm_compute; reflexivity. }
  assert (declared styles_css (rootElement p) !! "--color-primary"
            = Some (Lit (if dark then "#fff" else "#000"))) as Hr2.
  { unfold declared, styles_css. simpl. fold dark.
    destruct dark; vm_compute; reflexivity. }
  unfold bodyProperty. rewrite Hb1, Hb2.
  unfold bodyCustomProperty. rewrite Hb3, Hb4.
  unfold rootCustomProperty. rewrite Hbg, Hfg, Hr1, Hr2. done.
Qed.

Lemma setInitialColorMode_style (window : Window) (p : Page) (k : string) :
  k ≠ "--initial-color-mode" →
  style (after (setInitialColorMode window) p) !! k = style p !! k.
Proof.
  intros Hk. unfold after. rewrite setInitialColorMode_run.
  destruct (result (getInitialColorMode window) p) as [colorMode|e];
    [|reflexivity].
  js_unfold. simpl.
  repeat case_bool_decide; simpl;
    by rewrite ?lookup_delete_ne, ?lookup_insert_ne.
Qed.

Lemma mount_style (window : Window) (p : Page) :
  style (after (mount window) p) = style p.
Proof.
  unfold after. rewrite mount_run, darkThemeEffect_run.
  destruct (setItem_throws window); reflexivity.
Qed.

Lemma toggle_style (window : Window) (checked : bool) (p : Page) :
  style (after (toggle window checked) p) = style p.
Proof.
  unfold after. rewrite toggle_run. case_bool_decide; [reflexivity|].
  rewrite darkThemeEffect_run. destruct (setItem_throws window); reflexivity.
Qed.

Lemma reachable_style (window : Window) (p : Page) (k : string) :
  reachable window p → k ≠ "--initial-color-mode" → style p !! k = None.
Proof.
  intros Hreach Hk. induction Hreach as [store|p checked _ IH].
  - rewrite pageLoad_run. simpl.
    rewrite mount_style, setInitialColorMode_style by done. reflexivity.
  - by rewrite toggle_style.
Qed.

(** X6: the colours follow the checkbox.  On every page reached by a load
    and any toggles the body is black on white when [darkTheme] is [false]
    and white on black when it is [true]; in particular the text colour
    never equals the background. *)
Theorem colours_follow_darkTheme (window : Window) (p : Page) :
  reachable window p →
  ∃ b, darkTheme p = Some b ∧
       bodyProperty styles_css p "background-color"
         = Some (if b then "#000" else "#fff") ∧
       bodyProperty styles_css p "color"
         = Some (if b then "#fff" else "#000") ∧
       bodyProperty styles_css p "color"
         ≠ bodyProperty styles_css p "background-color".
Proof.
  intros Hreach.
  destruct (reachable_tracks_mode window p Hreach) as (b & Hb & Hattr).
  exists b. split; [done|].
  destruct (body_colours p) as [Hbg Hfg].
  { by apply (reachable_style window). }
  { by apply (reachable_style window). }
  rewrite Hbg, Hfg, Hattr. destruct b; simpl; done.
Qed.

Lemma colours_follow_darkTheme_witness :
  ∃ b, darkTheme (after (toggle (window_with JNull) true)
                    (pageLoad (window_with JNull) ∅).2) = Some b ∧
       bodyProperty styles_css
         (after (toggle (window_with JNull) true)
            (pageLoad (window_with JNull) ∅).2) "background-color"
         = Some (if b then "#000" else "#fff") ∧
       bodyProperty styles_css
         (after (toggle (window_with JNull) true)
            (pageLoad (window_with JNull) ∅).2) "color"
         = Some (if b then "#fff" else "#000") ∧
       bodyProperty styles_css
         (after (toggle (window_with JNull) true)
            (pageLoad (window_with JNull) ∅).2) "color"
         ≠ bodyProperty styles_css
             (after (toggle (window_with JNull) true)
                (pageLoad (window_with JNull) ∅).2) "background-color".
Proof.
  apply (colours_follow_darkTheme (window_with JNull)).
  apply reachable_toggle. apply reachable_load.
Defined.

(** ** Links and headings of the MDX content *)




(** X8: the link icon of a heading points at the heading itself.  For
    [h1], [h2] and [h3] the wrapper renders an element of that tag that
    keeps the [id] it was given, and whose first child is a link to [#]
    followed by that [id] ([#] alone when there is no [id]); the heading
    keeps its other props and children, and its [style] is the accent
    colour whatever [style] was passed. *)
Theorem heading_links_to_itself (isHovered : bool) (key : string)
    (props : gmap string PropValue) (children : list Node) :
  key = "h1" ∨ key = "h2" ∨ key = "h3" →
  ∃ component headingProps linkProps icon,
    MDXHeadingWrapper isHovered key = Some component ∧
    component props children =
      ElementNode "div" {[ "ref" := PRef ]}
        [ ElementNode key headingProps
            (ElementNode "LinkedHeaderIconWrapper" linkProps icon
               :: children) ] ∧
    headingProps !! "id" = props !! "id" ∧
    (∀ id, props !! "id" = Some (PString id) →
           linkProps !! "href" = Some (PString ("#" +:+ id))) ∧
    (props !! "id" = None → linkProps !! "href" = Some (PString "#")) ∧
    headingProps !! "style"
      = Some (PStyle [("color", "var(--color-primary-accent)")]) ∧
    (∀ k, k ≠ "style" → headingProps !! k = props !! k).
Proof.
  intros Hkey.
  assert (MDXHeadingWrapper isHovered key
            = Some (HandleMDXHeaderElement isHovered key)) as ->.
  { destruct Hkey as [->|[->| ->]]; reflexivity. }
  unfold HandleMDXHeaderElement, idOrEmpty.
  do 4 eexists. split; [reflexivity|]. split; [reflexivity|].
  split; [by rewrite lookup_insert_ne|].
  split; [intros id ->; by rewrite lookup_insert_eq|].
  split; [intros ->; by rewrite lookup_insert_eq|].
  split; [apply lookup_insert_eq|].
  intros k Hk. by rewrite lookup_insert_ne.
Qed.

Lemma heading_links_to_itself_witness :
  ∃ component headingProps linkProps icon,
    MDXHeadingWrapper false "h2" = Some component ∧
    component {[ "id" := PString "the-problem" ]} [TextNode "The Problem"] =
      ElementNode "div" {[ "ref" := PRef ]}
        [ ElementNode "h2" headingProps
            (ElementNode "LinkedHeaderIconWrapper" linkProps icon
               :: [TextNode "The Problem"]) ] ∧
    headingProps !! "id"
      = ({[ "id" := PString "the-problem" ]} : gmap string PropValue) !! "id" ∧
    (∀ id, ({[ "id" := PString "the-problem" ]} : gmap string PropValue)
             !! "id" = Some (PString id) →
           linkProps !! "href" = Some (PString ("#" +:+ id))) ∧
    (({[ "id" := PString "the-problem" ]} : gmap string PropValue) !! "id"
       = None → linkProps !! "href" = Some (PString "#")) ∧
    headingProps !! "style"
      = Some (PStyle [("color", "var(--color-primary-accent)")]) ∧
    (∀ k, k ≠ "style" →
          headingProps !! k
            = ({[ "id" := PString "the-problem" ]} : gmap string PropValue)
                !! k).
Proof.
  apply (heading_links_to_itself false "h2"
           {[ "id" := PString "the-problem" ]} [TextNode "The Problem"]).
  right. left. reflexivity.
Defined.

(** ** Static generation of the blog pages *)








(** ** The posts read from the file system *)

Lemma append_empty_inv (a b : string) :
  EmptyString = a +:+ b → a = EmptyString ∧ b = EmptyString.
Proof.
  destruct a; intros H; [|discriminate H].
  split; [reflexivity|]. symmetry. exact H.
Qed.

Lemma endsWith_spec (s suffix : string) :
  endsWith s suffix = true ↔ ∃ stem, s = stem +:+ suffix.
Proof.
  induction s as [|c s IH]; cbn [endsWith].
  - rewrite orb_false_r. split.
    + intros H. apply String.eqb_eq in H as <-. by exists EmptyString.
    + intros [stem H]. apply append_empty_inv in H as [_ ->].
      apply String.eqb_refl.
  - split.
    + intros H. apply orb_true_iff in H as [H|H].
      * apply String.eqb_eq in H as <-. by exists EmptyString.
      * apply IH in H as [stem ->]. by exists (String c stem).
    + intros [[|c' stem] H].
      * change (String c s = suffix) in H.
        rewrite <- H, String.eqb_refl. reflexivity.
      * change (String c s = String c' (stem +:+ suffix)) in H.
        injection H as <- ->. apply orb_true_iff. right.
        apply IH. by exists stem.
Qed.

Lemma removeSuffix_Some (suffix s stem : string) :
  removeSuffix suffix s = Some stem → s = stem +:+ suffix.
Proof.
  revert stem. induction s as [|c s IH]; intros stem; cbn [removeSuffix].
  - destruct (String.eqb_spec EmptyString suffix) as [<-|_]; [|done].
    by intros [= <-].
  - destruct (String.eqb_spec (String c s) suffix) as [<-|_].
    + by intros [= <-].
    + destruct (removeSuffix suffix s) as [stem'|]; [|done].
      intros [= <-]. change (String c s = String c (stem' +:+ suffix)).
      f_equal. by apply IH.
Qed.

Lemma removeSuffix_endsWith (suffix s : string) :
  endsWith s suffix = true → is_Some (removeSuffix suffix s).
Proof.
  induction s as [|c s IH]; cbn [endsWith removeSuffix].
  - rewrite orb_false_r. by intros ->.
  - destruct (String.eqb (String c s) suffix); [done|].
    rewrite orb_false_l.
    intros H. destruct (IH H) as [stem ->]. done.
Qed.

(** A name that ends with [.mdx] is its slug followed by [.mdx]. *)
Lemma removeMdxExtension_mdx (file : string) :
  endsWith file ".mdx" = true → file = removeMdxExtension file +:+ ".mdx".
Proof.
  intros H. unfold removeMdxExtension.
  destruct (removeSuffix_endsWith _ _ H) as [stem Hstem].
  rewrite Hstem. by apply removeSuffix_Some.
Qed.

Lemma mapOutcome_Returned {A B : Type} (f : A → Outcome B) (l : list A) :
  (∀ x, x ∈ l → ∃ y, f x = Returned y) →
  ∃ ys, mapOutcome f l = Returned ys ∧ Forall2 (λ x y, f x = Returned y) l ys.
Proof.
  induction l as [|x l IH]; intros Hall; simpl.
  - exists []. by split.
  - destruct (Hall x) as [y Hy]; [by left|]. rewrite Hy.
    destruct IH as (ys & -> & Hys).
    { intros x' Hx'. apply Hall. by right. }
    exists (y :: ys). split; [done|]. by constructor.
Qed.

Lemma mapOutcome_Rejected {A B : Type} (f : A → Outcome B) (l : list A) :
  (∃ x, x ∈ l ∧ ∃ message, f x = Rejected message) →
  ∃ x message, x ∈ l ∧ f x = Rejected message ∧
               mapOutcome f l = Rejected message.
Proof.
  induction l as [|x l IH]; intros (bad & Hin & message & Hbad); simpl.
  - by apply elem_of_nil in Hin.
  - destruct (f x) as [y|message'] eqn:Hx.
    + apply elem_of_cons in Hin as [->|Hin]; [congruence|].
      destruct IH as (x' & message'' & Hin' & Hx' & ->); [by eauto|].
      exists x', message''. split; [by right | done].
    + exists x, message'. split; [by left | done].
Qed.

Lemma elem_of_List_filter {A : Type} (f : A → bool) (l : list A) (x : A) :
  x ∈ List.filter f l ↔ x ∈ l ∧ f x = true.
Proof. rewrite !list_elem_of_In. apply filter_In. Qed.

Lemma NoDup_List_filter {A : Type} (f : A → bool) (l : list A) :
  NoDup l → NoDup (List.filter f l).
Proof.
  induction 1 as [|x l Hx Hl IH]; simpl; [constructor|].
  destruct (f x); [|done]. constructor; [|done].
  rewrite elem_of_List_filter. by intros [? _].
Qed.

Section BlogProperties.
Context {Value : Type} (ofString : string → Value).
Context (path_join : list string → string) (cwd : string).
Context (readdirSync : string → Outcome (list string)).
Context (readFileSync : string → Outcome string).
Context (META_exec : string → option string).
Context (evalMeta : string → Outcome (gmap string Value)).

Local Abbreviation dir := (DIR path_join cwd).
Local Abbreviation read :=
  (readPost ofString path_join cwd readFileSync META_exec evalMeta).
Local Abbreviation posts_data :=
  (getBlogPostsData ofString path_join cwd readdirSync readFileSync META_exec
     evalMeta).

(** A file the function gets through: it can be read, the expression
    matches its contents and [eval] returns. *)
Lemma readPost_Returned (file contents source : string)
    (meta : gmap string Value) :
  readFileSync (path_join [dir; file]) = Returned contents →
  META_exec contents = Some source →
  evalMeta source = Returned meta →
  read file = Returned (<["slug" := ofString (removeMdxExtension file)]> meta).
Proof. unfold readPost. by intros -> -> ->. Qed.

(** X11: the posts name their files.  If the directory can be listed and
    every [.mdx] file in it can be read, exports its metadata and [eval]
    returns for it, the promise of [getBlogPostsData] resolves with one
    post per [.mdx] file, in the order of the listing; the [slug] property
    of each post is the name of its file without [.mdx], whatever [slug]
    the metadata had; entries with another ending give no post; and as the
    names of a directory differ, so do the slugs. *)
Theorem posts_name_their_files (entries : list string) :
  readdirSync dir = Returned entries →
  (∀ file, file ∈ entries → endsWith file ".mdx" = true →
     ∃ contents source meta,
       readFileSync (path_join [dir; file]) = Returned contents ∧
       META_exec contents = Some source ∧
       evalMeta source = Returned meta) →
  let files := List.filter (λ file, endsWith file ".mdx") entries in
  ∃ posts,
    posts_data = Returned posts ∧
    (λ post : gmap string Value, post !! "slug") <$> posts
      = (λ file, Some (ofString (removeMdxExtension file))) <$> files ∧
    (λ file, removeMdxExtension file +:+ ".mdx") <$> files = files ∧
    (NoDup entries → NoDup (removeMdxExtension <$> files)).
Proof.
  intros Hdir Hgood files. unfold getBlogPostsData. rewrite Hdir. fold files.
  assert (Forall (λ file, endsWith file ".mdx" = true) files) as Hends.
  { apply Forall_forall. intros file Hfile.
    by apply elem_of_List_filter in Hfile as [_ ?]. }
  assert ((λ file, removeMdxExtension file +:+ ".mdx") <$> files = files)
    as Hnames.
  { clear -Hends. induction Hends as [|file files Hfile _ IH]; [done|].
    simpl. f_equal; [|done]. symmetry. by apply removeMdxExtension_mdx. }
  destruct (mapOutcome_Returned read files) as (posts & Hposts & Hall).
  { intros file Hfile. apply elem_of_List_filter in Hfile as [Hin Hfile].
    destruct (Hgood file Hin Hfile) as (contents & source & meta & H1 & H2 & H3).
    rewrite (readPost_Returned file contents source meta H1 H2 H3). eauto. }
  exists posts. split; [done|]. split; [|split; [done|]].
  - assert (Forall (λ file, file ∈ entries ∧ endsWith file ".mdx" = true)
              files) as Hin.
    { apply Forall_forall. intros file Hfile.
      by apply elem_of_List_filter in Hfile. }
    clear Hposts Hnames Hends.
    induction Hall as [|file post files' posts' Hpost _ IH]; [done|].
    apply Forall_cons in Hin as [[Hfile Hmdx] Hin].
    simpl. f_equal; [|by apply IH].
    destruct (Hgood file Hfile Hmdx) as (contents & source & meta & H1 & H2 & H3).
    rewrite (readPost_Returned file contents source meta H1 H2 H3) in Hpost.
    injection Hpost as <-. apply lookup_insert_eq.
  - intros Hnodup.
    assert (NoDup ((λ s, s +:+ ".mdx") <$> (removeMdxExtension <$> files)))
      as H.
    { rewrite <- list_fmap_compose. unfold compose. rewrite Hnames.
      by apply NoDup_List_filter. }
    by apply NoDup_fmap_1 in H.
Qed.

(** X12: one post without metadata fails the whole call.  If the directory
    can be listed and some [.mdx] file in it can be read but does not
    export [meta], the promise of [getBlogPostsData] rejects: there are no
    posts.  If moreover every [.mdx] file can be read and [eval] returns
    for those that export [meta], the message is the path of a file
    without [meta] followed by [needs to export const meta = {}]. *)
Theorem post_without_meta_rejects (entries : list string)
    (file contents : string) :
  readdirSync dir = Returned entries →
  file ∈ entries → endsWith file ".mdx" = true →
  readFileSync (path_join [dir; file]) = Returned contents →
  META_exec contents = None →
  (∃ message, posts_data = Rejected message) ∧
  ((∀ other, other ∈ entries → endsWith other ".mdx" = true →
      ∃ text, readFileSync (path_join [dir; other]) = Returned text ∧
              ∀ source, META_exec text = Some source →
                        ∃ meta, evalMeta source = Returned meta) →
   ∃ culprit text,
     culprit ∈ entries ∧
     readFileSync (path_join [dir; culprit]) = Returned text ∧
     META_exec text = None ∧
     posts_data = Rejected (path_join [dir; culprit]
                            +:+ " needs to export const meta = {}")).
Proof.
  intros Hdir Hin Hends Hread Hnone.
  unfold getBlogPostsData. rewrite Hdir.
  destruct (mapOutcome_Rejected read
              (List.filter (λ file, endsWith file ".mdx") entries))
    as (culprit & message & Hculprit & Hpost & Hresult).
  { exists file. split; [by apply elem_of_List_filter|].
    unfold readPost. rewrite Hread, Hnone. eauto. }
  rewrite Hresult. split; [by eauto|].
  intros Hgood.
  apply elem_of_List_filter in Hculprit as [Hculprit Hmdx].
  destruct (Hgood culprit Hculprit Hmdx) as (text & Htext & Heval).
  exists culprit, text. split; [done|]. split; [done|].
  unfold readPost in Hpost. rewrite Htext in Hpost.
  destruct (META_exec text) as [source|]; [|split; [done | congruence]].
  destruct (Heval source eq_refl) as [meta Hmeta].
  by rewrite Hmeta in Hpost.
Qed.

End BlogProperties.

Lemma posts_name_their_files_witness :
  let entries := ["dark-mode.mdx"; "notes.txt"] in
  let files := List.filter (λ file, endsWith file ".mdx") entries in
  ∃ posts,
    getBlogPostsData (λ s : string, s) (String.concat "/") "/site"
      (λ _, Returned entries) (λ name, Returned name)
      (λ contents, Some contents)
      (λ source, Returned {[ "title" := source; "slug" := "mine" ]})
      = Returned posts ∧
    (λ post : gmap string string, post !! "slug") <$> posts
      = (λ file, Some (removeMdxExtension file)) <$> files ∧
    (λ file, removeMdxExtension file +:+ ".mdx") <$> files = files ∧
    (NoDup entries → NoDup (removeMdxExtension <$> files)).
Proof.
  intros entries files.
  apply (posts_name_their_files (λ s : string, s) (String.concat "/") "/site"
           (λ _, Returned entries) (λ name, Returned name)
           (λ contents, Some contents)
           (λ source, Returned {[ "title" := source; "slug" := "mine" ]})
           entries eq_refl).
  intros file _ _. do 3 eexists. repeat split.
Defined.

Lemma post_without_meta_rejects_witness :
  let name :=
    String.concat "/"
      [String.concat "/" ["/site"; "src"; "content"; "blog"]; "draft.mdx"] in
  getBlogPostsData (λ s : string, s) (String.concat "/") "/site"
    (λ _, Returned ["draft.mdx"]) (λ name, Returned name)
    (λ _, None) (λ _, Returned ∅)
  = Rejected (name +:+ " needs to export const meta = {}").
Proof.
  intros name.
  destruct (post_without_meta_rejects (λ s : string, s) (String.concat "/")
              "/site" (λ _, Returned ["draft.mdx"]) (λ name, Returned name)
              (λ _, None) (λ _, Returned ∅) ["draft.mdx"] "draft.mdx" name)
    as [_ Hmessage].
  - reflexivity.
  - by left.
  - reflexivity.
  - reflexivity.
  - reflexivity.
  - destruct Hmessage as (culprit & text & Hculprit & _ & _ & ->).
    + intros other _ _. eexists. split; [reflexivity|]. discriminate.
    + apply list_elem_of_singleton in Hculprit as ->. reflexivity.
Defined.

(** ** The feed *)

Lemma feedItems_map (siteURL : option string) (posts : list TBlogPost) :
  feedItems siteURL posts =
    map (λ post,
           let url := default "undefined" siteURL +:+ "/blog/" +:+ slug post in
           {| item_title := title post; item_id := url; item_link := url;
              item_description := summary post;
              item_content := summary post;
              item_date := publishedAt post |})
        posts.
Proof.
  unfold feedItems, addItem.
  set (item := λ post : TBlogPost,
         let url := default "undefined" siteURL +:+ "/blog/" +:+ slug post in
         {| item_title := title post; item_id := url; item_link := url;
            item_description := summary post; item_content := summary post;
            item_date := publishedAt post |}).
  assert (∀ items,
            foldl (λ items post, items ++ [item post]) items posts
            = items ++ map item posts) as H.
  { induction posts as [|post posts IH]; intros items; simpl.
    - by rewrite app_nil_r.
    - rewrite IH, <- app_assoc. reflexivity. }
  apply (H []).
Qed.

Lemma append_inj_r (a b c : string) : a +:+ b = a +:+ c → b = c.
Proof.
  induction a as [|x a IH]; intros H; [exact H|].
  change (String x (a +:+ b) = String x (a +:+ c)) in H.
  injection H as H. by apply IH.
Qed.

(** X13: the feed has one item per post, in the order of the posts; the id
    of an item is its link, the address of the post under [/blog/]; and
    posts with different slugs get different ids. *)
Theorem feed_items_identify_posts (siteURL : option string)
    (posts : list TBlogPost) :
  item_id <$> feedItems siteURL posts
    = (λ post, default "undefined" siteURL +:+ "/blog/" +:+ slug post)
        <$> posts ∧
  Forall (λ item, item_link item = item_id item) (feedItems siteURL posts) ∧
  (NoDup (slug <$> posts) → NoDup (item_id <$> feedItems siteURL posts)).
Proof.
  rewrite feedItems_map.
  assert (item_id <$>
            map (λ post,
                   let url :=
                     default "undefined" siteURL +:+ "/blog/" +:+ slug post in
                   {| item_title := title post; item_id := url;
                      item_link := url; item_description := summary post;
                      item_content := summary post;
                      item_date := publishedAt post |}) posts
          = (λ post, default "undefined" siteURL +:+ "/blog/" +:+ slug post)
              <$> posts) as Hids.
  { induction posts as [|post posts IH]; simpl; [done|]. by f_equal. }
  split; [done|]. split.
  - apply Forall_forall. intros item Hitem.
    apply list_elem_of_fmap in Hitem as (post & -> & _). reflexivity.
  - intros Hnodup. rewrite Hids.
    assert ((λ post, default "undefined" siteURL +:+ "/blog/" +:+ slug post)
              <$> posts
            = (λ s, default "undefined" siteURL +:+ "/blog/" +:+ s)
                <$> (slug <$> posts)) as ->.
    { by rewrite <- list_fmap_compose. }
    apply NoDup_fmap_2; [|done].
    intros s1 s2 H. by do 2 apply append_inj_r in H.
Qed.

Lemma feed_items_identify_posts_witness :
  let posts :=
    [ {| slug := "a"; title := "A"; summary := ""; publishedAt := "";
         published := true |};
      {| slug := "b"; title := "B"; summary := ""; publishedAt := "";
         published := true |} ] in
  NoDup (item_id <$> feedItems (Some "https://sreetamdas.com") posts).
Proof.
  intros posts.
  destruct (feed_items_identify_posts (Some "https://sreetamdas.com") posts)
    as (_ & _ & Hnodup).
  apply Hnodup. apply NoDup_cons_2; [|apply NoDup_singleton].
  intros H. apply list_elem_of_singleton in H. discriminate H.
Defined.

(** ** The interval hook *)

Section UseIntervalProperties.
Context {Callback : Type} `{EqDecision Callback}.
Implicit Types (hook : @Hook Callback) (callback : Callback).
Implicit Types (history : list (@HookEvent Callback)).

Lemma render_invariant hook callback (delay : option Z) :
  hookInvariant hook → hookInvariant (render callback delay hook).
Proof.
  unfold hookInvariant, render, runCleanup, delayEffect.
  destruct hook as [saved ivs next [cid|] [[previous [pd|]]|]]; simpl;
    try done; intros Hinv;
    repeat case_bool_decide; destruct delay as [d|]; simpl in *;
    destruct_and?; simplify_eq; simpl;
    rewrite ?delete_singleton_eq, ?insert_empty; try done.
Qed.

Lemma unmount_invariant hook :
  hookInvariant hook → hookInvariant (unmount hook).
Proof.
  unfold hookInvariant, unmount, runCleanup.
  destruct hook as [saved ivs next [cid|] [[previous [pd|]]|]]; simpl;
    try done; intros Hinv; destruct_and?; simplify_eq;
    by rewrite ?delete_singleton_eq.
Qed.

Lemma elsewhere_invariant hook :
  hookInvariant hook → hookInvariant (elsewhere hook).
Proof. by destruct hook. Qed.

Lemma hookStep_invariant hook (event : @HookEvent Callback) :
  hookInvariant hook → hookInvariant (hookStep hook event).
Proof.
  destruct event; simpl;
    auto using render_invariant, unmount_invariant, elsewhere_invariant.
Qed.

Lemma hookAfter_invariant (firstId : nat) history :
  hookInvariant (hookAfter firstId history).
Proof.
  unfold hookAfter. induction history as [|event history IH] using rev_ind.
  - reflexivity.
  - rewrite foldl_app. simpl. by apply hookStep_invariant.
Qed.

Lemma hookAfter_snoc (firstId : nat) history
    (event : @HookEvent Callback) :
  hookAfter firstId (history ++ [event])
    = hookStep (hookAfter firstId history) event.
Proof. unfold hookAfter. by rewrite foldl_app. Qed.

Lemma render_rendered hook callback (delay : option Z) :
  rendered (render callback delay hook) = Some (callback, delay).
Proof. reflexivity. Qed.

(** X15: the hook leaks no timer.  Whatever the component did before
    (renders with any callbacks and delays, unmounts and mounts, other
    timers started in between), the hook owns at most one interval; it owns
    none once the component has unmounted, and none after a render with
    [delay = null]. *)
Theorem useInterval_leaves_no_timer (firstId : nat)
    history :
  (size (intervals (hookAfter firstId history)) ≤ 1)%nat ∧
  intervals (hookAfter firstId (history ++ [Unmount])) = ∅ ∧
  (∀ callback,
     intervals (hookAfter firstId (history ++ [Render callback None])) = ∅).
Proof.
  split; [|split].
  - pose proof (hookAfter_invariant firstId history) as Hinv.
    unfold hookInvariant in Hinv.
    destruct (rendered _) as [[callback [delay|]]|],
      (cleanup _) as [intervalId|]; try done.
    + destruct Hinv as [-> _]. by rewrite map_size_singleton.
    + destruct Hinv as [-> _]. rewrite map_size_empty. lia.
    + rewrite Hinv, map_size_empty. lia.
  - pose proof (hookAfter_invariant firstId (history ++ [Unmount])) as Hinv.
    rewrite hookAfter_snoc in *. simpl in *.
    unfold hookInvariant in Hinv. simpl in Hinv.
    by destruct (cleanup (runCleanup _)).
  - intros callback.
    pose proof (hookAfter_invariant firstId
                  (history ++ [Render callback None])) as Hinv.
    rewrite hookAfter_snoc in *. simpl in *.
    unfold hookInvariant in Hinv. rewrite render_rendered in Hinv.
    destruct (cleanup (render _ _ _)); [done|]. by destruct Hinv.
Qed.

(** X16: the interval calls the callback of the latest render.  After a
    render with a callback and a delay that is not [null], whatever
    happened before, exactly one interval of the hook is active, it has
    that delay, and when it fires it calls that callback, not one saved by
    an earlier render. *)
Theorem useInterval_calls_latest_callback (firstId : nat)
    history callback (delay : Z) :
  let hook := hookAfter firstId (history ++ [Render callback (Some delay)]) in
  ∃ intervalId,
    intervals hook = {[ intervalId := delay ]} ∧
    tick intervalId hook = Some callback ∧
    ∀ other, other ≠ intervalId → tick other hook = None.
Proof.
  intros hook.
  pose proof (hookAfter_invariant firstId
                (history ++ [Render callback (Some delay)])) as Hinv.
  fold hook in Hinv. unfold hookInvariant in Hinv.
  assert (rendered hook = Some (callback, Some delay)) as Hrendered.
  { unfold hook. rewrite hookAfter_snoc. reflexivity. }
  rewrite Hrendered in Hinv.
  destruct (cleanup hook) as [intervalId|]; [|done].
  destruct Hinv as [Hintervals Hsaved].
  exists intervalId. split; [done|]. unfold tick. rewrite Hintervals. split.
  - by rewrite lookup_singleton_eq.
  - intros other Hother. by rewrite lookup_singleton_ne.
Qed.


End UseIntervalProperties.


Lemma useInterval_calls_latest_callback_witness :
  let hook :=
    hookAfter 0 ([Render 1%nat (Some 5000%Z); Elsewhere]
                 ++ [Render 2%nat (Some 250%Z)]) in
  ∃ intervalId,
    intervals hook = {[ intervalId := 250%Z ]} ∧
    tick intervalId hook = Some 2%nat ∧
    ∀ other, other ≠ intervalId → tick other hook = None.
Proof.
  apply (useInterval_calls_latest_callback 0
           [Render 1%nat (Some 5000%Z); Elsewhere] 2%nat 250%Z).
Defined.

(** ** The chameleon colour and the theme *)

Lemma getNewColor_not_empty (h s l : N) : getNewColor h s l ≠ "".
Proof. discriminate. Qed.

Lemma bodyProperty_frame (p p' : Page) :
  attributes p' = attributes p →
  style p' !! "--color-background" = style p !! "--color-background" →
  style p' !! "--color-primary" = style p !! "--color-primary" →
  bodyProperty styles_css p' "background-color"
    = bodyProperty styles_css p "background-color" ∧
  bodyProperty styles_css p' "color" = bodyProperty styles_css p "color".
Proof.
  intros Hattrs Hbg Hfg.
  assert (declared styles_css bodyElement !! "background-color"
            = Some (Var "--color-background")) as Hb1 by reflexivity.
  assert (declared styles_css bodyElement !! "color"
            = Some (Var "--color-primary")) as Hb2 by reflexivity.
  assert (declared styles_css bodyElement !! "--color-background" = None)
    as Hb3 by reflexivity.
  assert (declared styles_css bodyElement !! "--color-primary" = None)
    as Hb4 by reflexivity.
  unfold bodyProperty. rewrite Hb1, Hb2.
  unfold bodyCustomProperty. rewrite Hb3, Hb4.
  unfold rootCustomProperty, rootElement. by rewrite Hattrs, Hbg, Hfg.
Qed.

(** X18: the chameleon colour and the theme do not disturb each other.
    [changeColor] stores the new colour in [--color-chameleon] and leaves
    the store, the attributes of the root, [--initial-color-mode] and the
    colours of the body as they were; and a toggle of the theme afterwards
    keeps the chameleon colour. *)
Theorem chameleon_leaves_theme_alone (window : Window) (p : Page)
    (h s l : N) (checked : bool) :
  let newColor := getNewColor h s l in
  let p' := after (changeColor newColor) p in
  result (changeColor newColor) p = Normal () ∧
  result (style_getPropertyValue "--color-chameleon") p' = Normal newColor ∧
  localStorage p' = localStorage p ∧
  attributes p' = attributes p ∧
  darkTheme p' = darkTheme p ∧
  initiallyDark p' = initiallyDark p ∧
  bodyProperty styles_css p' "background-color"
    = bodyProperty styles_css p "background-color" ∧
  bodyProperty styles_css p' "color" = bodyProperty styles_css p "color" ∧
  result (style_getPropertyValue "--color-chameleon")
    (after (toggle window checked) p') = Normal newColor.
Proof.
  intros newColor p'.
  assert (style p' = <["--color-chameleon" := newColor]> (style p)) as Hstyle.
  { change (style p') with
      (if bool_decide (newColor = "")
       then delete "--color-chameleon" (style p)
       else <["--color-chameleon" := newColor]> (style p)).
    rewrite bool_decide_eq_false_2; [done|]. apply getNewColor_not_empty. }
  assert (attributes p' = attributes p) as Hattrs by reflexivity.
  destruct (bodyProperty_frame p p' Hattrs) as [Hbg Hfg].
  { rewrite Hstyle. by rewrite lookup_insert_ne. }
  { rewrite Hstyle. by rewrite lookup_insert_ne. }
  split; [reflexivity|].
  split.
  { change (Normal (default "" (style p' !! "--color-chameleon"))
            = Normal newColor).
    by rewrite Hstyle, lookup_insert_eq. }
  split; [reflexivity|]. split; [done|]. split; [reflexivity|].
  split.
  { unfold initiallyDark. rewrite Hstyle. by rewrite lookup_insert_ne. }
  split; [done|]. split; [done|].
  change (Normal (default ""
            (style (after (toggle window checked) p') !! "--color-chameleon"))
          = Normal newColor).
  by rewrite toggle_style, Hstyle, lookup_insert_eq.
Qed.

(** ** Toggling there and back *)

Lemma toggle_changes (window : Window) (p : Page) (checked : bool) :
  store_writable window → darkTheme p ≠ Some checked →
  after (toggle window checked) p =
    set_localStorage (<["theme" := token checked]> (localStorage p))
      (set_attributes
         (if checked
          then <["data-theme" := "dark"]> (attributes p)
          else delete "data-theme" (attributes p))
         (set_darkTheme (Some checked) p)).
Proof.
  unfold store_writable, after. intros Hset Hne.
  rewrite toggle_run, bool_decide_eq_false_2 by done.
  rewrite darkThemeEffect_run, Hset. reflexivity.
Qed.

(** X19: unchecking and checking the box again (or the reverse) restores
    the page exactly.  On a page reached by a load and any toggles, with a
    writable store, a toggle to the other mode followed by a toggle back
    leaves the store, the style, the attributes of the root and the state
    of the component as they were before the two. *)
Theorem toggle_there_and_back (window : Window) (p : Page) (b : bool) :
  store_writable window → reachable window p → darkTheme p = Some b →
  after (toggle window b) (after (toggle window (negb b)) p) = p.
Proof.
  intros Hset Hreach Hb.
  pose proof (reachable_synced window p Hset Hreach b Hb) as Hstored.
  destruct (reachable_tracks_mode window p Hreach) as (b' & Hb' & Hattr).
  rewrite Hb in Hb'. injection Hb' as <-.
  unfold stored in Hstored.
  rewrite (toggle_changes window p (negb b)) by (rewrite ?Hb; by destruct b).
  rewrite toggle_changes by (by destruct b).
  destruct p as [store sty attrs dark]. simpl in *. subst dark.
  unfold set_localStorage, set_attributes, set_darkTheme. simpl.
  rewrite insert_insert_eq, (insert_id store "theme" (token b) Hstored).
  f_equal. destruct b; simpl.
  - rewrite insert_delete_eq. by apply insert_id.
  - rewrite delete_insert_eq. by apply delete_id.
Qed.

Lemma toggle_there_and_back_witness :
  after (toggle (window_with (JBool true)) true)
    (after (toggle (window_with (JBool true)) (negb true))
       (pageLoad (window_with (JBool true)) ∅).2)
  = (pageLoad (window_with (JBool true)) ∅).2.
Proof.
  apply (toggle_there_and_back (window_with (JBool true))
           (pageLoad (window_with (JBool true)) ∅).2 true).
  - reflexivity.
  - apply reachable_load.
  - reflexivity.
Defined.
